(** * Artillery processors: AWS SigV4 signing hook, loggers and fixtures

    A shallow embedding of the processor scripts of the repository:

    - [Processor]            the main processor (template resolution,
                             [signRequest], [afterResponse], [loadCsvData]);
    - [CustomArtilleryUtils] [utilities/custom-artillery-utils.js];
    - [CustomSigner]         [custom-signer.js].

    JavaScript strings are sequences of UTF-16 code units.  Header objects
    and [process.env] are finite maps of their own properties.  [context.vars]
    is a plain object: reading a property finds its own properties first and
    then the ones every object inherits from [Object.prototype].  The Node and
    npm libraries the scripts call ([url], [aws4], [csv-parse], [JSON],
    [Date], [Buffer], [String]) are the fields of the class [Host].  Reading a
    file and appending to a log file can throw; what is printed on the console
    is not tracked. *)

From Stdlib Require Import ZArith NArith List String Ascii Lia DecimalString.
From stdpp Require Import base option list countable gmap.

Local Open Scope N_scope.

(** ** Strings *)

(** A string value: its UTF-16 code units. *)
Abbreviation jsstring := (list N).

(** The code units of an ASCII literal. *)
Definition lit (s : string) : jsstring :=
  List.map N_of_ascii (list_ascii_of_string s).

(** [s.substring(0, n)]. *)
Definition substring0 (n : nat) (s : jsstring) : jsstring := firstn n s.

(** [!s] for a string: only the empty string is falsy. *)
Definition is_empty (s : jsstring) : bool :=
  match s with [] => true | _ => false end.

(** The class [\s] of a regular expression; it is also the set of characters
    [String.prototype.trim] strips (WhiteSpace and LineTerminator). *)
Definition is_space (c : N) : bool :=
  ((9 <=? c) && (c <=? 13)) || (c =? 32) || (c =? 160) || (c =? 5760)
  || ((8192 <=? c) && (c <=? 8202)) || (c =? 8232) || (c =? 8233)
  || (c =? 8239) || (c =? 8287) || (c =? 12288) || (c =? 65279).

Definition LBRACE : N := 123.
Definition RBRACE : N := 125.

(** The class [[^}]]. *)
Definition not_rbrace (c : N) : bool := negb (c =? RBRACE).

Fixpoint trimStart (s : jsstring) : jsstring :=
  match s with
  | c :: t => if is_space c then trimStart t else s
  | [] => []
  end.

(** [s.trim()]. *)
Definition trim (s : jsstring) : jsstring :=
  rev (trimStart (rev (trimStart s))).

(** Decimal rendering of an integer, as [String(n)] and template literals
    give for the integers the scripts print (status codes, lengths: all far
    below the size from which JavaScript switches to exponent notation). *)
Definition decimal (z : Z) : jsstring :=
  lit (NilZero.string_of_int (Z.to_int z)).

(** ** A backtracking matcher for the placeholder pattern

    Matchers are written in continuation-passing style: a matcher consumes a
    prefix of the input and hands the rest to its continuation; when the
    continuation fails it backtracks, longest alternative first, as the
    greedy quantifiers of an ECMAScript regular expression do. *)

Section Matchers.
Context {R : Type}.

(** A literal character. *)
Definition chr (c : N) (k : jsstring -> option R) (s : jsstring) : option R :=
  match s with
  | x :: t => if x =? c then k t else None
  | [] => None
  end.

(** [cls*], greedy. *)
Fixpoint star (cls : N -> bool) (k : jsstring -> option R) (s : jsstring)
  : option R :=
  match s with
  | x :: t =>
      if cls x
      then match star cls k t with
           | Some r => Some r
           | None => k s
           end
      else k s
  | [] => k []
  end.

(** [(cls+)], greedy and capturing: the continuation receives the captured
    text ([acc] holds what the group has consumed so far). *)
Fixpoint plus_capture (cls : N -> bool)
    (k : jsstring -> jsstring -> option R) (acc s : jsstring) : option R :=
  match s with
  | x :: t =>
      if cls x
      then match plus_capture cls k (acc ++ [x]) t with
           | Some r => Some r
           | None => k (acc ++ [x]) t
           end
      else None
  | [] => None
  end.
End Matchers.

(** [/{{\s*([^}]+)\s*}}/] anchored at the start of [s]: the captured key and
    the text after the match. *)
Definition placeholder_exec (s : jsstring) : option (jsstring * jsstring) :=
  chr LBRACE (chr LBRACE (star is_space (plus_capture not_rbrace
    (fun key => star is_space (chr RBRACE (chr RBRACE
       (fun rest => Some (key, rest))))) [])))
    s.

(** ** Exceptions *)

(** A thrown [Error]. *)
Record Error := mkError { message : jsstring }.

(** [k(r)] where evaluating [r] may throw. *)
Definition and_then {A B : Type} (r : Error + A) (k : A -> Error + B)
  : Error + B :=
  match r with
  | inr a => k a
  | inl e => inl e
  end.

(** [p + r] where evaluating [r] may throw. *)
Definition prepend (p : jsstring) (r : Error + jsstring) : Error + jsstring :=
  match r with
  | inr s => inr (p ++ s)
  | inl e => inl e
  end.

(** ** Global replacement *)

(** [s.replace(/{{\s*([^}]+)\s*}}/g, (_, key) => f key)].  The scan goes left
    to right; [inside] counts the code units of [s] that still belong to the
    last match and are skipped, so the search resumes right after it.  The
    callback is called once per match, in order; when it throws, the
    replacement ends with its exception. *)
Fixpoint replace_placeholders (f : jsstring -> Error + jsstring)
    (inside : nat) (s : jsstring) : Error + jsstring :=
  match s with
  | [] => inr []
  | c :: t =>
      match inside with
      | S n => replace_placeholders f n t
      | O =>
          match placeholder_exec s with
          | Some (key, rest) =>
              and_then (f key) (fun text =>
                prepend text
                  (replace_placeholders f (length t - length rest) t))
          | None => prepend [c] (replace_placeholders f 0 t)
          end
      end
  end.

(** The keys the replacement hands to its callback, in order. *)
Fixpoint placeholder_keys (inside : nat) (s : jsstring) : list jsstring :=
  match s with
  | [] => []
  | c :: t =>
      match inside with
      | S n => placeholder_keys n t
      | O =>
          match placeholder_exec s with
          | Some (key, rest) =>
              key :: placeholder_keys (length t - length rest) t
          | None => placeholder_keys 0 t
          end
      end
  end.

(** ** Values shared by the scripts *)

(** Template rendering of a possibly [undefined] string: [`${x}`]. *)
Definition interpolate (x : option jsstring) : jsstring :=
  default (lit "undefined") x.

(** Template rendering and [+] concatenation of a possibly [null] string. *)
Definition or_null (x : option jsstring) : jsstring :=
  default (lit "null") x.

(** [x || d] for a possibly missing string: the empty string is falsy. *)
Definition or_else (x : option jsstring) (d : jsstring) : jsstring :=
  match x with
  | Some s => if is_empty s then d else s
  | None => d
  end.

(** [x || undefined]. *)
Definition or_undefined (x : option jsstring) : option jsstring :=
  match x with
  | Some s => if is_empty s then None else Some s
  | None => None
  end.

(** Header objects; a property may hold [undefined]. *)
Abbreviation Headers := (gmap (list N) (option (list N))).

(** [process.env]. *)
Abbreviation ProcessEnv := (gmap (list N) (list N)).

(** The rows of a CSV file, each a mapping from column name to value. *)
Abbreviation Records := (list (gmap (list N) (list N))).

(** The fields of [url.parse(...)] the scripts read; [None] is [null]. *)
Record UrlObject := {
  pathname : option jsstring;
  search : option jsstring;
  path : option jsstring
}.

(** The credentials object handed to [aws4.sign]. *)
Record Credentials := {
  accessKeyId : option jsstring;
  secretAccessKey : option jsstring;
  sessionToken : option jsstring
}.

(** The options object handed to [aws4.sign]. *)
Record SignOpts := {
  opt_host : option jsstring;
  opt_method : option jsstring;
  opt_path : option jsstring;
  opt_service : jsstring;
  opt_region : option jsstring;
  opt_body : option jsstring;
  opt_headers : Headers
}.

(** What [aws4.sign] leaves in the request object it was given and returns:
    the signed headers, and the path, which it writes anew. *)
Record SignedRequest := {
  signed_headers : Headers;
  signed_path : jsstring
}.

(** The three log files of [./artillery-logs]. *)
Inductive LogFile := RESPONSE_LOG | ERROR_LOG | DEBUG_LOG.

#[global] Instance LogFile_eq_dec : EqDecision LogFile.
Proof. solve_decision. Defined.

(** What a hook passes to its continuation: [next()] or [next(err)]. *)
Inductive NextCall := Next | NextErr (err : Error).

(** ** The libraries the scripts call *)

Class Host := {
  (** the values a property of [context.vars] can hold, [undefined] apart *)
  value : Type;
  (** [String(v)]; it throws for a value that has no string conversion (an
      object whose [toString] throws, or one created without a prototype) *)
  js_String : value -> Error + jsstring;
  (** the properties every plain object inherits ([constructor], [toString],
      [hasOwnProperty], ...): [Object.prototype[name]] *)
  Object_prototype : jsstring -> option value;
  (** plain structured data (request payloads, parsed response bodies),
      which [JSON.stringify] serialises without throwing *)
  data : Type;
  truthy : data -> bool;
  JSON_stringify : data -> jsstring;          (* JSON.stringify(x) *)
  JSON_stringify_indent : data -> jsstring;   (* JSON.stringify(x, null, 2) *)
  (** instants *)
  Date : Type;
  toISOString : Date -> jsstring;
  (** [url.parse] *)
  url_parse : jsstring -> Error + UrlObject;
  (** [aws4.sign(opts, creds)]. Without a credentials argument [aws4] reads
      [process.env]; the timestamp it signs is the current instant.  It works
      on a copy of the headers it is given. *)
  aws4_sign : ProcessEnv -> SignOpts -> option Credentials -> Date
              -> Error + SignedRequest;
  (** [parse(text, {columns: true, skip_empty_lines: true})] of csv-parse *)
  csv_parse : jsstring -> Error + Records;
  (** [buffer.toString("utf-8")] *)
  Buffer_toString : list N -> jsstring
}.

(** [context.vars]: its own properties; [None] is a property that holds
    [undefined]. *)
Abbreviation Vars := (gmap (list N) (option value)).

(** ** State and exceptions *)

(** A computation over a state [St] that returns or throws. *)
Definition M (St A : Type) : Type := St -> (Error + A) * St.

Definition ret {St A} (a : A) : M St A := fun s => (inr a, s).

Definition bind {St A B} (c : M St A) (k : A -> M St B) : M St B :=
  fun s => match c s with
           | (inr a, s') => k a s'
           | (inl e, s') => (inl e, s')
           end.

Notation "'do' x <- c ; k" := (bind c (fun x => k))
  (at level 60, x name, c at next level, right associativity).

(** The result of a library call that may throw. *)
Definition lift {St A} (r : Error + A) : M St A := fun s => (r, s).

Definition gets {St A} (f : St -> A) : M St A := fun s => (inr (f s), s).

Definition modify {St} (f : St -> St) : M St unit := fun s => (inr tt, f s).

(** [try { body } catch (err) { handler err }]. *)
Definition try_catch {St A} (body : M St A) (handler : Error -> M St A)
  : M St A :=
  fun s => match body s with
           | (inl err, s') => handler err s'
           | r => r
           end.

(** ** Requests, responses and the world the hooks run in *)

Section Data.
Context {H : Host}.

(** [vars[name]]: the own property, else the inherited one; [None] is
    [undefined]. *)
Definition property_of (vars : Vars) (name : jsstring) : option value :=
  match vars !! name with
  | Some own => own
  | None => Object_prototype name
  end.

(** [requestParams.body]: text, or data still to be serialised. *)
Inductive Body := BodyText (s : jsstring) | BodyData (j : data).

(** The request descriptor ([requestParams]); [None] is an absent property. *)
Record RequestParams := {
  url : jsstring;
  method : option jsstring;
  headers : option Headers;
  json : option data;
  body : option Body
}.

(** [response.body]: a [Buffer], text, or parsed data. *)
Inductive ResponseBody :=
| RBuffer (bytes : list N)
| RText (s : jsstring)
| RData (j : data).

(** A response; the status code is the number the HTTP parser read. *)
Record Response := {
  statusCode : N;
  response_body : option ResponseBody
}.

(** What the hooks read and write outside their arguments: the log files,
    the clock (one hook call reads one instant), the files [readFileSync]
    can read, the exception [appendFileSync] throws for a log file that
    cannot be written (log directory removed, no permission, disk full), and
    the record of the calls made to [aws4.sign]. *)
Record World := {
  logs : LogFile -> jsstring;
  clock : Date;
  disk : jsstring -> Error + jsstring;
  append_fault : LogFile -> option Error;
  aws4_calls : list (SignOpts * option Credentials)
}.

(** The state of a running [signRequest]: the descriptor it mutates and the
    world. *)
Record SignState := { req : RequestParams; world : World }.

Definition on_req (f : RequestParams -> RequestParams) (s : SignState)
  : SignState := {| req := f (req s); world := world s |}.

Definition on_world (f : World -> World) (s : SignState) : SignState :=
  {| req := req s; world := f (world s) |}.

(** A computation on the world, run inside a hook. *)
Definition in_world {A} (c : M World A) : M SignState A :=
  fun s => match c (world s) with
           | (r, w') => (r, {| req := req s; world := w' |})
           end.

Definition set_url (u : jsstring) (r : RequestParams) : RequestParams :=
  {| url := u; method := method r; headers := headers r;
     json := json r; body := body r |}.

Definition set_headers (h : Headers) (r : RequestParams) : RequestParams :=
  {| url := url r; method := method r; headers := Some h;
     json := json r; body := body r |}.

Definition set_body (b : Body) (r : RequestParams) : RequestParams :=
  {| url := url r; method := method r; headers := headers r;
     json := json r; body := Some b |}.

(** [delete requestParams.json]. *)
Definition delete_json (r : RequestParams) : RequestParams :=
  {| url := url r; method := method r; headers := headers r;
     json := None; body := body r |}.

(** The text in [requestParams.body], when it holds text. *)
Definition body_text (r : RequestParams) : option jsstring :=
  match body r with
  | Some (BodyText s) => Some s
  | _ => None
  end.

(** Does the descriptor carry a [json] property? *)
Definition has_json (r : RequestParams) : bool :=
  match json r with Some _ => true | None => false end.

(** Truthiness of [requestParams.body]. *)
Definition body_truthy (b : option Body) : bool :=
  match b with
  | Some (BodyText s) => negb (is_empty s)
  | Some (BodyData j) => truthy j
  | None => false
  end.

(** Truthiness of [response.body]; a [Buffer] is an object, hence truthy. *)
Definition response_body_truthy (b : option ResponseBody) : bool :=
  match b with
  | Some (RBuffer _) => true
  | Some (RText s) => negb (is_empty s)
  | Some (RData j) => truthy j
  | None => false
  end.

(** [fs.readFileSync(filePath, "utf8")]. *)
Definition readFileSync (filePath : jsstring) : M World jsstring :=
  fun w => (disk w filePath, w).

(** The world after [text] has been added at the end of [file]. *)
Definition appended (file : LogFile) (text : jsstring) (w : World) : World :=
  {| logs := fun f => if decide (f = file) then logs w f ++ text
                      else logs w f;
     clock := clock w; disk := disk w; append_fault := append_fault w;
     aws4_calls := aws4_calls w |}.

(** [fs.appendFileSync(file, text)]: it throws, and writes nothing, when the
    file cannot be written. *)
Definition appendFileSync (file : LogFile) (text : jsstring) : M World unit :=
  fun w => match append_fault w file with
           | Some e => (inl e, w)
           | None => (inr tt, appended file text w)
           end.

(** The world after a call of the signer. *)
Definition call_recorded (opts : SignOpts) (creds : option Credentials)
    (w : World) : World :=
  {| logs := logs w; clock := clock w; disk := disk w;
     append_fault := append_fault w;
     aws4_calls := aws4_calls w ++ [(opts, creds)] |}.

(** [aws4.sign(opts, creds)] in a process with environment [env]. *)
Definition call_aws4_sign (env : ProcessEnv) (opts : SignOpts)
    (creds : option Credentials) : M World SignedRequest :=
  fun w => (aws4_sign env opts creds (clock w), call_recorded opts creds w).
End Data.

(** [s.substring(0, 500)] followed by an ellipsis when [s] is longer. *)
Definition snippet500 (s : jsstring) : jsstring :=
  substring0 500 s ++ (if (500 <? length s)%nat then lit "..." else []).

(** ** The main processor *)

Module Processor.
Section Processor.
Context {H : Host}.
(** [process.env] when the module is loaded. *)
Variable env : ProcessEnv.

Definition SERVICE_NAME : jsstring := lit "execute-api".
Definition REGION : option jsstring := env !! lit "AWS_REGION".
Definition TARGET_HOST : option jsstring := env !! lit "TARGET_HOST".

Definition DEBUG_LOG_BODY_ENABLED : bool :=
  bool_decide (env !! lit "DEBUG_LOG_BODY" = Some (lit "true")).
Definition RESPONSE_LOG_BODY_ENABLED : bool :=
  bool_decide (env !! lit "RESPONSE_LOG_BODY_ENABLED" = Some (lit "true")).

Definition logToFile (file : LogFile) (message : jsstring) : M World unit :=
  do timestamp <- gets (fun w => toISOString (clock w));
  appendFileSync file (lit "[" ++ timestamp ++ lit "] " ++ message ++ [10]).

Definition loadCsvData (filePath : jsstring) : M World Records :=
  try_catch
    (do csvContent <- readFileSync filePath;
     do records <- lift (csv_parse csvContent);
     do _ <- logToFile DEBUG_LOG
               (lit "Loaded " ++ decimal (Z.of_nat (length records))
                ++ lit " records from CSV: " ++ filePath);
     ret records)
    (fun err =>
       do _ <- logToFile ERROR_LOG
                 (lit "CSV Load Failed for " ++ filePath ++ lit ": "
                  ++ message err);
       ret []).

Definition resolveTemplate (str : jsstring) (vars : Vars)
  : Error + jsstring :=
  if is_empty str then inr str
  else replace_placeholders
         (fun key => match property_of vars (trim key) with
                     | Some v => js_String v
                     | None => inr []
                     end) 0 str.

(** The [try] block of [signRequest], up to the call of [next]. *)
Definition signRequest_try (vars : Vars) : M SignState unit :=
  (* 1. Path preparation *)
  do requestParams <- gets req;
  do resolvedUrl <- lift (resolveTemplate (url requestParams) vars);
  do parsedUrl <- lift (url_parse resolvedUrl);
  let canonicalPath :=
    or_null (pathname parsedUrl) ++ or_else (search parsedUrl) [] in
  (* 2. Body preparation *)
  do body <-
    match json requestParams with
    | Some j =>
        if truthy j then
          let jsonBodyString := JSON_stringify j in
          do body <- lift (resolveTemplate jsonBodyString vars);
          do _ <- modify (on_req (set_body (BodyText body)));
          do _ <- modify (on_req delete_json);
          ret (Some body)
        else ret None
    | None => ret None
    end;
  do _ <-
    match body with
    | Some b =>
        if is_empty b then ret tt
        else in_world (logToFile DEBUG_LOG
               (lit "POST Body Signed Content: " ++ substring0 100 b))
    | None => ret tt
    end;
  (* 3. Canonical signing options *)
  do requestParams <- gets req;
  let opts :=
    {| opt_host := TARGET_HOST;
       opt_method := method requestParams;
       opt_path := Some canonicalPath;
       opt_service := SERVICE_NAME;
       opt_region := REGION;
       opt_body := body;
       opt_headers :=
         <[lit "Host" := TARGET_HOST]> (default ∅ (headers requestParams)) |} in
  (* 4. Sign *)
  let creds :=
    {| accessKeyId := env !! lit "APP_AWS_KEY";
       secretAccessKey := env !! lit "APP_AWS_SECRET";
       sessionToken := or_undefined (env !! lit "APP_AWS_SESSION") |} in
  do signed <- in_world (call_aws4_sign env opts (Some creds));
  (* 5. Apply headers and final URL *)
  do _ <- modify (on_req (set_url canonicalPath));
  do _ <- modify (on_req (set_headers (signed_headers signed)));
  ret tt.

(** [signRequest(requestParams, context, ee, next)]: how it ends (the call
    of its continuation, or an exception), the descriptor as it leaves it,
    and the world. *)
Definition signRequest (requestParams : RequestParams) (vars : Vars)
    (w : World) : (Error + NextCall) * RequestParams * World :=
  match try_catch (do _ <- signRequest_try vars; ret Next)
                  (fun err => ret (NextErr err))
                  {| req := requestParams; world := w |} with
  | (outcome, s) => (outcome, req s, world s)
  end.

Definition afterResponse (requestParams : RequestParams)
    (response : option Response) : M World NextCall :=
  let requestUrl :=
    interpolate (method requestParams) ++ lit " " ++ url requestParams in
  (* response body *)
  let responseBodyText :=
    match response with
    | Some r =>
        if response_body_truthy (response_body r) then
          match response_body r with
          | Some (RBuffer b) => Buffer_toString b
          | Some (RText s) => s
          | Some (RData j) => JSON_stringify_indent j
          | None => lit "<no response body>"
          end
        else lit "<no response body>"
    | None => lit "<no response body>"
    end in
  (* request body *)
  let requestBodyText :=
    if body_truthy (body requestParams) then
      match body requestParams with
      | Some (BodyText s) => s
      | Some (BodyData j) => JSON_stringify_indent j
      | None => lit "<no request body>"
      end
    else lit "<no request body>" in
  match response with
  | None =>
      (* no response: connection error *)
      let errorMsg := lit "No response received for " ++ requestUrl ++ lit "." in
      let errorMsg :=
        if DEBUG_LOG_BODY_ENABLED
        then errorMsg ++ lit " Request Body: " ++ snippet500 requestBodyText
        else errorMsg in
      do _ <- logToFile ERROR_LOG errorMsg;
      ret Next
  | Some r =>
      let statusCode := statusCode r in
      let logMessage :=
        decimal (Z.of_N statusCode) ++ lit " " ++ requestUrl
        ++ lit " | Response Snippet: " ++ snippet500 responseBodyText in
      do _ <-
        if (400 <=? statusCode)%N then
          (* 4xx or 5xx are errors *)
          (let logMessage :=
             if DEBUG_LOG_BODY_ENABLED
             then logMessage ++ [10] ++ lit "REQUEST BODY: "
                  ++ snippet500 requestBodyText
             else logMessage in
           if RESPONSE_LOG_BODY_ENABLED
           then logToFile ERROR_LOG logMessage
           else ret tt)
        else if (200 <=? statusCode)%N && (statusCode <? 400)%N
                && RESPONSE_LOG_BODY_ENABLED
        then logToFile RESPONSE_LOG logMessage
        else if RESPONSE_LOG_BODY_ENABLED
        then logToFile DEBUG_LOG (lit "[Other Status] " ++ logMessage)
        else ret tt;
      ret Next
  end.
End Processor.
End Processor.

(** ** [utilities/custom-artillery-utils.js] *)

Module CustomArtilleryUtils.
Section CustomArtilleryUtils.
Context {H : Host}.
Variable env : ProcessEnv.

Definition SERVICE_NAME : jsstring := lit "execute-api".
Definition REGION : option jsstring := env !! lit "AWS_REGION".
Definition TARGET_HOST : option jsstring := env !! lit "TARGET_HOST".

Definition logToFile (file : LogFile) (message : jsstring) : M World unit :=
  do timestamp <- gets (fun w => toISOString (clock w));
  appendFileSync file (lit "[" ++ timestamp ++ lit "] " ++ message ++ [10]).

Definition loadCsvData (filePath : jsstring) : M World Records :=
  try_catch
    (do csvContent <- readFileSync filePath;
     do records <- lift (csv_parse csvContent);
     do _ <- logToFile DEBUG_LOG
               (lit "Loaded " ++ decimal (Z.of_nat (length records))
                ++ lit " records from CSV: " ++ filePath);
     ret records)
    (fun err =>
       do _ <- logToFile ERROR_LOG
                 (lit "CSV Load Failed for " ++ filePath ++ lit ": "
                  ++ message err);
       ret []).

(** The [try] block of [signRequest], up to the call of [next]. *)
Definition signRequest_try : M SignState unit :=
  do requestParams <- gets req;
  do parsedUrl <- lift (url_parse (url requestParams));
  let requestPath := path parsedUrl in
  let body :=
    match json requestParams with
    | Some j => if truthy j then Some (JSON_stringify j) else None
    | None => None
    end in
  let options :=
    {| opt_host := TARGET_HOST;
       opt_method := Some (or_else (method requestParams) (lit "GET"));
       opt_path := requestPath;
       opt_service := SERVICE_NAME;
       opt_region := REGION;
       opt_body := body;
       opt_headers := default ∅ (headers requestParams) |} in
  do signed <- in_world (call_aws4_sign env options None);
  do _ <- modify (on_req (set_headers (signed_headers signed)));
  do _ <-
    match body with
    | Some b => if is_empty b then ret tt
                else modify (on_req (set_body (BodyText b)))
    | None => ret tt
    end;
  (* [options.path] is read after [aws4.sign] has rewritten it *)
  in_world (logToFile DEBUG_LOG
    (lit "Signed " ++ interpolate (opt_method options) ++ lit " "
     ++ signed_path signed ++ lit " for "
     ++ interpolate TARGET_HOST ++ lit " ("
     ++ interpolate REGION ++ lit ")")).

(** [signRequest(requestParams, context, ee, next)]: the [catch] block
    writes to the error log before it calls [next(err)], so the hook can end
    with an exception. *)
Definition signRequest (requestParams : RequestParams) (w : World)
  : (Error + NextCall) * RequestParams * World :=
  match try_catch (do _ <- signRequest_try; ret Next)
                  (fun err =>
                     do _ <- in_world (logToFile ERROR_LOG
                               (lit "SigV4 Signing Failed: " ++ message err));
                     ret (NextErr err))
                  {| req := requestParams; world := w |} with
  | (outcome, s) => (outcome, req s, world s)
  end.
End CustomArtilleryUtils.
End CustomArtilleryUtils.

(** ** [custom-signer.js] *)

Module CustomSigner.
Section CustomSigner.
Context {H : Host}.
Variable env : ProcessEnv.

Definition SERVICE_NAME : jsstring := lit "execute-api".
Definition REGION : jsstring := lit "us-east-2".
Definition TARGET_HOST : jsstring :=
  lit "xc2wojfn0c.execute-api.us-east-2.amazonaws.com".

(** The [try] block of [signRequest], up to the call of [next]. *)
Definition signRequest_try : M SignState unit :=
  do requestParams <- gets req;
  do parsedUrl <- lift (url_parse (url requestParams));
  let requestPath := path parsedUrl in
  let body :=
    match json requestParams with
    | Some j => if truthy j then Some (JSON_stringify j) else None
    | None => None
    end in
  (* 1. Prepare the signing options *)
  let options :=
    {| opt_host := Some TARGET_HOST;
       opt_method := Some (or_else (method requestParams) (lit "GET"));
       opt_path := requestPath;
       opt_service := SERVICE_NAME;
       opt_region := Some REGION;
       opt_body := body;
       opt_headers := default ∅ (headers requestParams) |} in
  (* 2. Sign the request *)
  do signedRequest <- in_world (call_aws4_sign env options None);
  (* 3. Apply the signed headers *)
  do _ <- modify (on_req (set_headers (signed_headers signedRequest)));
  match body with
  | Some b => if is_empty b then ret tt
              else modify (on_req (set_body (BodyText b)))
  | None => ret tt
  end.

Definition signRequest (requestParams : RequestParams) (w : World)
  : (Error + NextCall) * RequestParams * World :=
  match try_catch (do _ <- signRequest_try; ret Next)
                  (fun error => ret (NextErr error))
                  {| req := requestParams; world := w |} with
  | (outcome, s) => (outcome, req s, world s)
  end.
End CustomSigner.
End CustomSigner.

(** ** Templates as the specification describes them *)

(** Does [s] contain two consecutive opening braces? *)
Fixpoint has_open (s : jsstring) : bool :=
  match s with
  | a :: t =>
      match t with
      | b :: _ => (a =? LBRACE) && (b =? LBRACE) || has_open t
      | [] => false
      end
  | [] => false
  end.

(** Does [s] contain two consecutive closing braces? *)
Fixpoint has_close (s : jsstring) : bool :=
  match s with
  | a :: t =>
      match t with
      | b :: _ => (a =? RBRACE) && (b =? RBRACE) || has_close t
      | [] => false
      end
  | [] => false
  end.

(** Does [s] contain a marker, that is [{{] followed somewhere by [}}]? *)
Fixpoint has_marker (s : jsstring) : bool :=
  match s with
  | a :: t =>
      match t with
      | b :: u => (a =? LBRACE) && (b =? LBRACE) && has_close u || has_marker t
      | [] => false
      end
  | [] => false
  end.

(** Literal text that cannot open a placeholder, alone or with the braces of
    a placeholder that follows it. *)
Definition plain_text (t : jsstring) : bool := negb (has_open (t ++ [LBRACE])).

(** The text between the braces of a placeholder: not empty, no [}]. *)
Definition placeholder_text (inner : jsstring) : bool :=
  negb (is_empty inner) && forallb not_rbrace inner.

(** The callback of [resolveTemplate]: the property named by the trimmed key
    as a string, or the empty string when it is [undefined]. *)
Definition lookup_var {H : Host} (vars : Vars) (key : jsstring)
  : Error + jsstring :=
  match property_of vars (trim key) with
  | Some v => js_String v
  | None => inr []
  end.

(** A line as [logToFile] writes it. *)
Definition log_line {H : Host} (now : Date) (message : jsstring) : jsstring :=
  lit "[" ++ toISOString now ++ lit "] " ++ message ++ [10].

(** ** The steps of the signing hook, named *)

Section SigningSteps.
Context {H : Host}.
Variable env : ProcessEnv.
Implicit Types (r : RequestParams) (vars : Vars) (w : World)
  (body : option jsstring).

(** Path plus query of a parsed URL, as [signRequest] assembles it. *)
Definition canonicalPath (parsedUrl : UrlObject) : jsstring :=
  or_null (pathname parsedUrl) ++ or_else (search parsedUrl) [].

(** Step 1: the resolved URL, parsed. *)
Definition parsed_url r vars : Error + UrlObject :=
  and_then (Processor.resolveTemplate (url r) vars) url_parse.

(** Step 2: the body [signRequest] signs, the resolved serialisation of a
    truthy [json] payload, nothing otherwise. *)
Definition signed_body r vars : Error + option jsstring :=
  match json r with
  | Some j =>
      if truthy j
      then and_then (Processor.resolveTemplate (JSON_stringify j) vars)
             (fun b => inr (Some b))
      else inr None
  | None => inr None
  end.

(** The descriptor after the body preparation. *)
Definition prepared r body : RequestParams :=
  match body with
  | Some b => delete_json (set_body (BodyText b) r)
  | None => r
  end.

(** The debug message about the body, written when the body is truthy. *)
Definition body_message body : option jsstring :=
  match body with
  | Some b =>
      if is_empty b then None
      else Some (lit "POST Body Signed Content: " ++ substring0 100 b)
  | None => None
  end.

(** The exception of the append of that message, when there is a message
    and the debug log cannot be written. *)
Definition body_log_fault body w : option Error :=
  match body_message body with
  | Some _ => append_fault w DEBUG_LOG
  | None => None
  end.

(** The world after that message has been written. *)
Definition body_logged body w : World :=
  match body_message body with
  | Some m =>
      appended DEBUG_LOG (log_line (clock w) m) w
  | None => w
  end.

(** Step 3: the options [signRequest] hands to the signer. *)
Definition signing_options r body (parsedUrl : UrlObject) : SignOpts :=
  {| opt_host := Processor.TARGET_HOST env;
     opt_method := method r;
     opt_path := Some (canonicalPath parsedUrl);
     opt_service := Processor.SERVICE_NAME;
     opt_region := Processor.REGION env;
     opt_body := body;
     opt_headers :=
       <[lit "Host" := Processor.TARGET_HOST env]> (default ∅ (headers r)) |}.

(** Step 4: the credentials [signRequest] reads from the environment. *)
Definition env_credentials : Credentials :=
  {| accessKeyId := env !! lit "APP_AWS_KEY";
     secretAccessKey := env !! lit "APP_AWS_SECRET";
     sessionToken := or_undefined (env !! lit "APP_AWS_SESSION") |}.

(** The first exception thrown by a step of [signRequest], if any: by
    [String] during template resolution, by [url.parse], by the append to the
    debug log, or by the signer. *)
Definition first_throw r vars w : option Error :=
  match parsed_url r vars with
  | inl e => Some e
  | inr parsedUrl =>
      match signed_body r vars with
      | inl e => Some e
      | inr body =>
          match body_log_fault body w with
          | Some e => Some e
          | None =>
              match aws4_sign env (signing_options r body parsedUrl)
                      (Some env_credentials) (clock w) with
              | inl e => Some e
              | inr _ => None
              end
          end
      end
  end.
End SigningSteps.

(** ** The steps of [custom-signer.js] and of the utilities script, named *)

Section LegacySteps.
Context {H : Host}.
Variable env : ProcessEnv.
Implicit Types (r : RequestParams) (w : World).

(** The body the older hooks sign: the serialisation of a truthy [json]
    payload as it stands. *)
Definition serialized_body r : option jsstring :=
  match json r with
  | Some j => if truthy j then Some (JSON_stringify j) else None
  | None => None
  end.

(** The options [custom-signer.js] hands to the signer. *)
Definition custom_signer_options r (parsedUrl : UrlObject) : SignOpts :=
  {| opt_host := Some CustomSigner.TARGET_HOST;
     opt_method := Some (or_else (method r) (lit "GET"));
     opt_path := path parsedUrl;
     opt_service := CustomSigner.SERVICE_NAME;
     opt_region := Some CustomSigner.REGION;
     opt_body := serialized_body r;
     opt_headers := default ∅ (headers r) |}.

(** The first exception thrown by a step of [custom-signer.js], if any. *)
Definition custom_signer_first_throw r w : option Error :=
  match url_parse (url r) with
  | inl e => Some e
  | inr parsedUrl =>
      match aws4_sign env (custom_signer_options r parsedUrl) None (clock w)
      with
      | inl e => Some e
      | inr _ => None
      end
  end.

(** The options the utilities script hands to the signer. *)
Definition utils_options r (parsedUrl : UrlObject) : SignOpts :=
  {| opt_host := CustomArtilleryUtils.TARGET_HOST env;
     opt_method := Some (or_else (method r) (lit "GET"));
     opt_path := path parsedUrl;
     opt_service := CustomArtilleryUtils.SERVICE_NAME;
     opt_region := CustomArtilleryUtils.REGION env;
     opt_body := serialized_body r;
     opt_headers := default ∅ (headers r) |}.

(** The descriptor after a successful run of [custom-signer.js] or of the
    utilities script: the signer's headers, and the serialised payload in
    [body] when it is not empty. *)
Definition legacy_signed (signed : Headers) r : RequestParams :=
  match serialized_body r with
  | Some b => if is_empty b then set_headers signed r
              else set_body (BodyText b) (set_headers signed r)
  | None => set_headers signed r
  end.

(** The debug line of the utilities script. *)
Definition utils_signed_message r (signed : SignedRequest) : jsstring :=
  lit "Signed " ++ or_else (method r) (lit "GET") ++ lit " "
  ++ signed_path signed ++ lit " for "
  ++ interpolate (env !! lit "TARGET_HOST") ++ lit " ("
  ++ interpolate (env !! lit "AWS_REGION") ++ lit ")".

(** The [catch] block of the utilities script: how the hook ends once [e]
    has been caught with the descriptor [r] and the world [w]. *)
Definition utils_caught (e : Error) r w
  : (Error + NextCall) * RequestParams * World :=
  match CustomArtilleryUtils.logToFile ERROR_LOG
          (lit "SigV4 Signing Failed: " ++ message e) w with
  | (inr _, w') => (inr (NextErr e), r, w')
  | (inl thrown, w') => (inl thrown, r, w')
  end.
End LegacySteps.

(** ** Fixtures and log routing *)

(** The records of a fixture file: what reading and parsing it gives. *)
Definition csv_records {H : Host} (w : World) (filePath : jsstring)
  : Error + Records :=
  and_then (disk w filePath) csv_parse.

Definition loaded_message (records : Records) (filePath : jsstring)
  : jsstring :=
  lit "Loaded " ++ decimal (Z.of_nat (length records))
  ++ lit " records from CSV: " ++ filePath.

Definition load_failed_message (filePath : jsstring) (err : Error)
  : jsstring :=
  lit "CSV Load Failed for " ++ filePath ++ lit ": " ++ message err.

(** The [catch] block of [loadCsvData]: the error line and the empty list,
    or the exception of the append. *)
Definition load_caught {H : Host} (filePath : jsstring) (err : Error)
    (w : World) : (Error + Records) * World :=
  match append_fault w ERROR_LOG with
  | Some thrown => (inl thrown, w)
  | None =>
      (inr [],
       appended ERROR_LOG
         (log_line (clock w) (load_failed_message filePath err)) w)
  end.


(** Every log file of [w'] is the file of [w] with text added at its end. *)
Definition log_appended {H : Host} (w w' : World) : Prop :=
  forall f, exists suffix, logs w' f = logs w f ++ suffix.

(** ** A concrete host

    Small stand-ins for the libraries, used to run the scripts on concrete
    inputs.  Values are text, functions (rendered by their source text) and
    objects without a string conversion; [Object.prototype] is cut down to
    [constructor] and [toString].  Payloads are flat objects with text
    fields, serialised as [JSON.stringify] serialises text that needs no
    escaping; URLs are relative references, parsed as [url.parse] does (no
    path gives a [null] pathname).  The signer reads the key material without
    checking it (a missing key is rendered [undefined]), signs an absent path
    as [/], and puts in place of the digest the text the digest would be
    computed from. *)

Module Sample.
Definition QUOTE : N := 34.

Inductive sample_value :=
| VText (s : jsstring)
| VFunction (source : jsstring)
| VBare.

Definition sample_String (v : sample_value) : Error + jsstring :=
  match v with
  | VText s => inr s
  | VFunction source => inr source
  | VBare => inl (mkError (lit "Cannot convert object to primitive value"))
  end.

Definition sample_prototype (name : jsstring) : option sample_value :=
  if decide (name = lit "constructor")
  then Some (VFunction (lit "function Object() { [native code] }"))
  else if decide (name = lit "toString")
  then Some (VFunction (lit "function toString() { [native code] }"))
  else None.

Definition quoted (s : jsstring) : jsstring := QUOTE :: s ++ [QUOTE].

Fixpoint members (sep colon : jsstring) (fields : list (jsstring * jsstring))
  : jsstring :=
  match fields with
  | [] => []
  | (k, v) :: rest =>
      quoted k ++ colon ++ quoted v
      ++ match rest with [] => [] | _ => sep ++ members sep colon rest end
  end.

Definition stringify (fields : list (jsstring * jsstring)) : jsstring :=
  lit "{" ++ members (lit ",") (lit ":") fields ++ lit "}".

Definition stringify_indent (fields : list (jsstring * jsstring)) : jsstring :=
  match fields with
  | [] => lit "{}"
  | _ => lit "{" ++ [10] ++ lit "  "
         ++ members (lit "," ++ [10] ++ lit "  ") (lit ": ") fields
         ++ [10] ++ lit "}"
  end.

(** [s] up to the first [c], and the rest from [c] on. *)
Fixpoint break_at (c : N) (s : jsstring) : jsstring * jsstring :=
  match s with
  | x :: t => if x =? c then ([], s)
              else let (a, b) := break_at c t in (x :: a, b)
  | [] => ([], [])
  end.

Definition parse_relative (u : jsstring) : Error + UrlObject :=
  let (p, q) := break_at 63 (fst (break_at 35 u)) in
  inr {| pathname := if is_empty p then None else Some p;
         search := if is_empty q then None else Some q;
         path := if is_empty (p ++ q) then None else Some (p ++ q) |}.

(** A parser that rejects every URL. *)
Definition parse_rejecting (u : jsstring) : Error + UrlObject :=
  inl (mkError (lit "Invalid URL")).

(** The headers as lines [name:value]. *)
Definition header_lines (h : Headers) : jsstring :=
  concat (List.map (fun kv => kv.1 ++ lit ":" ++ interpolate kv.2 ++ [10])
            (map_to_list h)).

Definition sign_unchecked (env : ProcessEnv) (opts : SignOpts)
    (creds : option Credentials) (now : jsstring)
  : Error + SignedRequest :=
  let c := default {| accessKeyId := env !! lit "AWS_ACCESS_KEY_ID";
                      secretAccessKey := env !! lit "AWS_SECRET_ACCESS_KEY";
                      sessionToken := env !! lit "AWS_SESSION_TOKEN" |} creds in
  let path := or_else (opt_path opts) (lit "/") in
  let signature :=
    interpolate (secretAccessKey c) ++ lit "|" ++ now ++ lit "|"
    ++ interpolate (opt_method opts) ++ lit "|" ++ path ++ lit "|"
    ++ header_lines (opt_headers opts) ++ lit "|"
    ++ default [] (opt_body opts) in
  inr {| signed_headers :=
           <[lit "Authorization" :=
               Some (lit "AWS4-HMAC-SHA256 Credential="
                     ++ interpolate (accessKeyId c) ++ lit ", Signature="
                     ++ signature)]>
           (<[lit "X-Amz-Date" := Some now]> (opt_headers opts));
         signed_path := path |}.

(** A signer that always throws. *)
Definition sign_failing (env : ProcessEnv) (opts : SignOpts)
    (creds : option Credentials) (now : jsstring)
  : Error + SignedRequest :=
  inl (mkError (lit "signing failed")).

(** The pieces of [s] between the occurrences of [c]. *)
Fixpoint split_on (c : N) (s : jsstring) : list jsstring :=
  match s with
  | x :: t =>
      match split_on c t with
      | cur :: more => if x =? c then [] :: cur :: more
                       else (x :: cur) :: more
      | [] => [[x]]
      end
  | [] => [[]]
  end.

(** Comma-separated lines under a header line; a line whose number of
    fields differs from the header's is an error. *)
Definition parse_csv (text : jsstring) : Error + Records :=
  match List.filter (fun l => negb (is_empty l)) (split_on 10 text) with
  | [] => inr []
  | header :: rows =>
      let columns := split_on 44 header in
      if forallb (fun r => (length (split_on 44 r) =? length columns)%nat) rows
      then inr (List.map (fun r => list_to_map (zip columns (split_on 44 r)))
                  rows)
      else inl (mkError (lit "Invalid Record Length"))
  end.

(** The host: instants are their ISO rendering. *)
Definition host
    (parse : jsstring -> Error + UrlObject)
    (sign : ProcessEnv -> SignOpts -> option Credentials -> jsstring
            -> Error + SignedRequest) : Host :=
  {| value := sample_value;
     js_String := sample_String;
     Object_prototype := sample_prototype;
     data := list (jsstring * jsstring);
     truthy := fun _ => true;
     JSON_stringify := stringify;
     JSON_stringify_indent := stringify_indent;
     Date := jsstring;
     toISOString := fun d => d;
     url_parse := parse;
     aws4_sign := sign;
     csv_parse := parse_csv;
     Buffer_toString := fun b => b |}.

(** The host whose signer does not check its credentials. *)
Definition lenient : Host := host parse_relative sign_unchecked.

(** The host whose signer throws. *)
Definition failing : Host := host parse_relative sign_failing.

(** A world with empty logs that can be written. *)
Definition world0 (files : jsstring -> Error + jsstring)
    {parse sign} : @World (host parse sign) :=
  @Build_World (host parse sign)
    (fun _ => []) (lit "2024-01-01T00:00:00.000Z") files (fun _ => None) [].

Definition ENOENT : Error := mkError (lit "ENOENT: no such file or directory").

(** The same world after the log directory has been removed: no log file
    can be written. *)
Definition world_without_logs (files : jsstring -> Error + jsstring)
    {parse sign} : @World (host parse sign) :=
  @Build_World (host parse sign)
    (fun _ => []) (lit "2024-01-01T00:00:00.000Z") files
    (fun _ => Some ENOENT) [].

Definition no_files (p : jsstring) : Error + jsstring := inl ENOENT.
End Sample.

(** ** Concrete inputs *)

Module Inputs.
Import Sample.

Definition env_full : ProcessEnv :=
  list_to_map
    [(lit "AWS_REGION", lit "us-east-1");
     (lit "TARGET_HOST", lit "api.example.com");
     (lit "APP_AWS_KEY", lit "AKIDEXAMPLE");
     (lit "APP_AWS_SECRET", lit "s3cr3t");
     (lit "RESPONSE_LOG_BODY_ENABLED", lit "true")].

(** The same environment without the secret access key. *)
Definition env_no_secret : ProcessEnv := delete (lit "APP_AWS_SECRET") env_full.

(** [{name: "42"}]. *)
Definition vars_42 : gmap (list N) (option sample_value) :=
  {[ lit "name" := Some (VText (lit "42")) ]}.

(** [{}]. *)
Definition no_vars : gmap (list N) (option sample_value) := ∅.


(** [POST /items/{{name}}] with the payload [{id: "{{ name }}"}]. *)
Definition post_item {parse sign} : @RequestParams (host parse sign) :=
  @Build_RequestParams (host parse sign)
    (lit "/items/{{name}}?v=1")
    (Some (lit "POST"))
    (Some {[ lit "Content-Type" := Some (lit "application/json") ]})
    (Some [(lit "id", lit "{{ name }}")])
    None.

(** [GET] of [u] without headers. *)
Definition get {parse sign} (u : jsstring) : @RequestParams (host parse sign) :=
  @Build_RequestParams (host parse sign) u (Some (lit "GET")) None None None.

(** [GET /status] carrying its own [Host] header. *)
Definition get_status (hostname : jsstring) {parse sign}
  : @RequestParams (host parse sign) :=
  @Build_RequestParams (host parse sign)
    (lit "/status") (Some (lit "GET"))
    (Some {[ lit "Host" := Some hostname ]}) None None.

(** The files on disk: a well-formed fixture and one whose row is short. *)
Definition fixtures (p : jsstring) : Error + jsstring :=
  if decide (p = lit "./data/users.csv")
  then inr (lit "name,email" ++ [10] ++ lit "ann,ann@example.com" ++ [10])
  else if decide (p = lit "./data/broken.csv")
  then inr (lit "name,email" ++ [10] ++ lit "ann" ++ [10])
  else no_files p.

(** A response with a status code and a text body. *)
Definition respond {parse sign} (status : N) (text : jsstring)
  : @Response (host parse sign) :=
  @Build_Response (host parse sign) status
    (Some (@RText (host parse sign) text)).

(** A [404 Not Found] response. *)
Definition not_found {parse sign} : @Response (host parse sign) :=
  respond 404 (lit "Not Found").
End Inputs.

(** ** Response validation *)

(** A value as [JSON.parse] returns it; numbers are kept abstract. *)
#[local] Unset Elimination Schemes.
Inductive json_value (num : Type) : Type :=
| JNull
| JBool (b : bool)
| JNumber (n : num)
| JString (s : jsstring)
| JArray (items : list (json_value num))
| JObject (fields : list (jsstring * json_value num)).
#[local] Set Elimination Schemes.

Arguments JNull {num}.
Arguments JBool {num} b.
Arguments JNumber {num} n.
Arguments JString {num} s.
Arguments JArray {num} items.
Arguments JObject {num} fields.

(** [object[key]] for the members of a parsed object, in source order: of two
    members with the same name the later one stands. *)
Fixpoint get_property {num : Type} (key : jsstring)
    (fields : list (jsstring * json_value num)) : option (json_value num) :=
  match fields with
  | [] => None
  | (k, v) :: rest =>
      match get_property key rest with
      | Some v' => Some v'
      | None => if decide (k = key) then Some v else None
      end
  end.

Section Validation.
Context {H : Host} {num : Type}.
(** [JSON.parse] *)
Variable JSON_parse : jsstring -> Error + json_value num.
(** is the number [0] or [-0]? *)
Variable is_zero : num -> bool.
(** [String(x)] for structured data *)
Variable data_toString : data -> jsstring.
(** the [TypeError] thrown by reading a property of [null] *)
Variable null_property_error : Error.

(** The text [JSON.parse] works on: its argument converted to a string. *)
Definition response_body_string (b : option ResponseBody) : jsstring :=
  match b with
  | Some (RBuffer bytes) => Buffer_toString bytes
  | Some (RText s) => s
  | Some (RData j) => data_toString j
  | None => lit "undefined"
  end.

(** [body.id]. *)
Definition get_id (body : json_value num) : Error + option (json_value num) :=
  match body with
  | JNull => inl null_property_error
  | JObject fields => inr (get_property (lit "id") fields)
  | _ => inr None
  end.

(** Truthiness of a parsed value. *)
Definition truthy_value (v : json_value num) : bool :=
  match v with
  | JNull => false
  | JBool b => b
  | JNumber n => negb (is_zero n)
  | JString s => negb (is_empty s)
  | JArray _ => true
  | JObject _ => true
  end.

Definition missing_id : Error :=
  mkError (lit "Response is missing the required ID field.").

(** The [try] block of [validateResponseData]. *)
Definition validateResponseData_try (response : Response) : M unit unit :=
  do body <- lift (JSON_parse (response_body_string (response_body response)));
  do id <- lift (get_id body);
  match id with
  | Some v => if truthy_value v then ret tt else lift (inl missing_id)
  | None => lift (inl missing_id)
  end.

Definition validateResponseData (requestParams : RequestParams)
    (response : Response) : NextCall :=
  match validateResponseData_try response tt with
  | (inr _, _) => Next
  | (inl e, _) =>
      NextErr (mkError (lit "Validation failed for " ++ url requestParams
                        ++ lit ": " ++ message e))
  end.
End Validation.

(** ** Random data helpers *)

(** The local-time fields of [new Date()] that [uniqueFakerEmail] reads. *)
Record LocalTime := {
  getDate : Z;
  getMinutes : Z;
  getSeconds : Z;
  getMilliseconds : Z
}.

(** What the calls of [faker] made by one run of [generateRandoms] return. *)
Record Faker := {
  word_sample : jsstring;
  string_uuid : jsstring;
  internet_email : jsstring;
  internet_username : jsstring;
  internet_domainName : jsstring;
  lorem_words : nat -> jsstring
}.

(** The local time is in the ranges of the [Date] getters. *)
Definition in_range (date : LocalTime) : bool :=
  (1 <=? getDate date)%Z && (getDate date <=? 31)%Z
  && (0 <=? getMinutes date)%Z && (getMinutes date <=? 59)%Z
  && (0 <=? getSeconds date)%Z && (getSeconds date <=? 59)%Z
  && (0 <=? getMilliseconds date)%Z && (getMilliseconds date <=? 999)%Z.

(** [s.padStart(targetLength, pad)] for a one-character [pad]. *)
Definition padStart (targetLength : nat) (pad : N) (s : jsstring) : jsstring :=
  repeat pad (targetLength - length s) ++ s.

Definition ZERO : N := 48.

(** A decimal digit. *)
Definition is_digit (c : N) : bool := (48 <=? c) && (c <=? 57).

(** The tag [uniqueFakerEmail] builds from the clock. *)
Definition uniqueTag (date : LocalTime) : jsstring :=
  let dd := padStart 2 ZERO (decimal (getDate date)) in
  let mm := padStart 2 ZERO (decimal (getMinutes date)) in
  let ss := padStart 2 ZERO (decimal (getSeconds date)) in
  let ms := padStart 3 ZERO (decimal (getMilliseconds date)) in
  dd ++ mm ++ ss ++ ms.

Definition uniqueFakerEmail (date : LocalTime) (faker : Faker) : jsstring :=
  let baseUser := internet_username faker in
  let uniqueTag := uniqueTag date in
  let domain := internet_domainName faker in
  baseUser ++ lit "." ++ uniqueTag ++ lit "@" ++ domain.

(** [randomText(wordCount = 10)]. *)
Definition randomText (faker : Faker) (wordCount : option nat) : jsstring :=
  lorem_words faker (default 10%nat wordCount).

Section GenerateRandoms.
Context {H : Host}.
(** a string as a value of [context.vars] *)
Variable of_string : jsstring -> value.

(** [generateRandoms(context, events, done)]: [context.vars] as it leaves
    it; the hook ends with [done()]. *)
Definition generateRandoms (date : LocalTime) (faker : Faker)
    (vars : Vars) : Vars :=
  let vars := <[lit "randomWord" := Some (of_string (word_sample faker))]> vars in
  let vars := <[lit "randomUuid" := Some (of_string (string_uuid faker))]> vars in
  let vars :=
    <[lit "randomEmail" := Some (of_string (internet_email faker))]> vars in
  let vars :=
    <[lit "uniqueEmail" := Some (of_string (uniqueFakerEmail date faker))]>
      vars in
  <[lit "randomText" := Some (of_string (randomText faker None))]> vars.
End GenerateRandoms.

(** The names [generateRandoms] binds, each with the text it binds it to. *)
Definition generated (date : LocalTime) (faker : Faker)
  : list (jsstring * jsstring) :=
  [(lit "randomWord", word_sample faker);
   (lit "randomUuid", string_uuid faker);
   (lit "randomEmail", internet_email faker);
   (lit "uniqueEmail", uniqueFakerEmail date faker);
   (lit "randomText", randomText faker None)].

(** The value of a run of decimal digits. *)
Definition digits_value (s : jsstring) : Z :=
  fold_left (fun acc c => (10 * acc + (Z.of_N c - 48))%Z) s 0%Z.

(** ** More concrete inputs *)

Module MoreInputs.
(** A parser for which every body is the document [{"id": "u-1"}]. *)
Definition parse_with_id (text : jsstring) : Error + json_value Z :=
  inr (JObject [(lit "id", JString (lit "u-1"))]).

(** A parser for which every body is the document [{"name": "ann"}]. *)
Definition parse_without_id (text : jsstring) : Error + json_value Z :=
  inr (JObject [(lit "name", JString (lit "ann"))]).

Definition null_error : Error :=
  mkError (lit "Cannot read properties of null (reading 'id')").

Definition noon : LocalTime :=
  {| getDate := 7; getMinutes := 5; getSeconds := 30; getMilliseconds := 42 |}.

Definition later : LocalTime :=
  {| getDate := 7; getMinutes := 5; getSeconds := 31; getMilliseconds := 42 |}.

Definition draws : Faker :=
  {| word_sample := lit "lamp";
     string_uuid := lit "3f2c9a7e-0000-4000-8000-000000000001";
     internet_email := lit "ann@example.com";
     internet_username := lit "ann";
     internet_domainName := lit "example.org";
     lorem_words := fun n => lit "lorem ipsum" |}.

(** The environment with the host and region [custom-signer.js] hard-codes. *)
Definition env_custom : ProcessEnv :=
  list_to_map
    [(lit "AWS_REGION", lit "us-east-2");
     (lit "TARGET_HOST",
      lit "xc2wojfn0c.execute-api.us-east-2.amazonaws.com")].

(** [PUT /items] carrying its payload in [body], not in [json]. *)
Definition put_raw {parse sign} : @RequestParams (Sample.host parse sign) :=
  @Build_RequestParams (Sample.host parse sign)
    (lit "/items") (Some (lit "PUT")) None None
    (Some (@BodyText (Sample.host parse sign) (lit "raw payload"))).

(** A [204] response without a body. *)
Definition no_content {parse sign} : @Response (Sample.host parse sign) :=
  @Build_Response (Sample.host parse sign) 204 None.

(** [GET ?x=1]: a relative reference without a path. *)
Definition query_only {parse sign} : @RequestParams (Sample.host parse sign) :=
  Inputs.get (lit "?x=1").

(** [GET {{ endpoint }}]: the whole URL is a placeholder. *)
Definition templated_url {parse sign}
  : @RequestParams (Sample.host parse sign) :=
  Inputs.get (lit "{{ endpoint }}").
End MoreInputs.

(** * Properties *)

(** ** The placeholder pattern on examples *)

Example placeholder_exec_blanks :
  placeholder_exec (lit "{{ id }}/x") = Some (lit "id ", lit "/x").
Proof. reflexivity. Qed.

Example placeholder_exec_only_blanks :
  placeholder_exec (lit "{{  }}") = Some (lit " ", []).
Proof. reflexivity. Qed.

Example placeholder_exec_empty : placeholder_exec (lit "{{}}") = None.
Proof. reflexivity. Qed.

Example placeholder_exec_single_brace :
  placeholder_exec (lit "{{a}b}}") = None.
Proof. reflexivity. Qed.

Example placeholder_exec_inner_open :
  placeholder_exec (lit "{{{a}}") = Some (lit "{a", []).
Proof. reflexivity. Qed.

Example replace_placeholders_keys :
  replace_placeholders (fun key => inr (lit "<" ++ key ++ lit ">")) 0
    (lit "a{{x}}b{{ y z }}{{}}c")
  = inr (lit "a<x>b<y z >{{}}c").
Proof. reflexivity. Qed.

(** ** Trimming *)

Lemma trimStart_spaces (ws s : jsstring) :
  forallb is_space ws = true -> trimStart (ws ++ s) = trimStart s.
Proof.
  induction ws as [|x ws IH]; simpl; [reflexivity|].
  intros Hws. apply andb_prop in Hws as [Hx Hws].
  rewrite Hx. auto.
Qed.

Lemma trim_space_cons (x : N) (s : jsstring) :
  is_space x = true -> trim (x :: s) = trim s.
Proof. intros Hx. unfold trim. simpl. rewrite Hx. reflexivity. Qed.

(** ** The matcher *)

Section MatcherFacts.
Context {R : Type}.
Implicit Types (k : jsstring -> option R) (cls : N -> bool).

Lemma chr_inv c k s r :
  chr c k s = Some r -> exists t, s = c :: t /\ k t = Some r.
Proof.
  destruct s as [|x t]; simpl; [discriminate|].
  destruct (N.eqb_spec x c) as [->|]; [eauto | discriminate].
Qed.

Lemma star_inv cls k s r :
  star cls k s = Some r ->
  exists ws s', s = ws ++ s' /\ forallb cls ws = true /\ k s' = Some r.
Proof.
  induction s as [|x t IH]; simpl.
  - intros Hk. exists [], []. auto.
  - destruct (cls x) eqn:Hx.
    + destruct (star cls k t) as [r'|] eqn:Ht.
      * intros [= ->]. destruct (IH eq_refl) as (ws & s' & -> & Hws & Hk).
        exists (x :: ws), s'. simpl. rewrite Hx, Hws. auto.
      * intros Hk. exists [], (x :: t). auto.
    + intros Hk. exists [], (x :: t). auto.
Qed.

(** A character outside the class stops the star at once. *)
Lemma star_stop cls k x t :
  cls x = false -> star cls k (x :: t) = k (x :: t).
Proof. intros Hx. simpl. rewrite Hx. reflexivity. Qed.

Lemma plus_capture_inv cls (k : jsstring -> jsstring -> option R) acc s r :
  plus_capture cls k acc s = Some r ->
  exists core s', core <> [] /\ s = core ++ s'
                  /\ forallb cls core = true /\ k (acc ++ core) s' = Some r.
Proof.
  revert acc. induction s as [|x t IH]; simpl; intros acc; [discriminate|].
  destruct (cls x) eqn:Hx; [|discriminate].
  destruct (plus_capture cls k (acc ++ [x]) t) as [r'|] eqn:Ht.
  - intros [= ->]. destruct (IH _ Ht) as (core & s' & _ & -> & Hcore & Hk).
    exists (x :: core), s'. simpl. rewrite Hx, Hcore.
    rewrite <- app_assoc in Hk. auto.
  - intros Hk. exists [x], t. simpl. rewrite Hx. auto.
Qed.

(** The group takes every character of the class it can when the
    continuation accepts what follows. *)
Lemma plus_capture_all cls (k : jsstring -> jsstring -> option R)
    acc core s' r :
  core <> [] -> forallb cls core = true ->
  plus_capture cls k (acc ++ core) s' = None ->
  k (acc ++ core) s' = Some r ->
  plus_capture cls k acc (core ++ s') = Some r.
Proof.
  revert acc. induction core as [|x core IH]; intros acc Hne Hcls Hstop Hk;
    [congruence|].
  simpl in Hcls. apply andb_prop in Hcls as [Hx Hcls].
  simpl. rewrite Hx.
  destruct core as [|y core].
  - simpl. rewrite Hstop. exact Hk.
  - rewrite (IH (acc ++ [x])); [reflexivity|discriminate|exact Hcls| |];
      rewrite <- app_assoc; assumption.
Qed.
End MatcherFacts.

Lemma space_not_rbrace (ws : jsstring) :
  forallb is_space ws = true -> forallb not_rbrace ws = true.
Proof.
  induction ws as [|x ws IH]; simpl; [reflexivity|].
  intros Hws. apply andb_prop in Hws as [Hx Hws]. rewrite (IH Hws), andb_true_r.
  unfold not_rbrace, RBRACE. destruct (N.eqb_spec x 125) as [->|]; [|reflexivity].
  discriminate Hx.
Qed.

(** A match has the shape [{{ inner }}] with [inner] non-empty and free of
    closing braces, and ends where [rest] starts. *)
Lemma placeholder_exec_inv (s key rest : jsstring) :
  placeholder_exec s = Some (key, rest) ->
  exists inner, s = lit "{{" ++ inner ++ lit "}}" ++ rest
                /\ placeholder_text inner = true.
Proof.
  unfold placeholder_exec. intros Hm.
  apply chr_inv in Hm as (s1 & -> & Hm).
  apply chr_inv in Hm as (s2 & -> & Hm).
  apply star_inv in Hm as (ws1 & s3 & -> & Hws1 & Hm).
  apply plus_capture_inv in Hm as (core & s4 & Hne & -> & Hcore & Hm).
  apply star_inv in Hm as (ws2 & s5 & -> & Hws2 & Hm).
  apply chr_inv in Hm as (s6 & -> & Hm).
  apply chr_inv in Hm as (s7 & -> & Hm).
  injection Hm as _ <-.
  exists (ws1 ++ core ++ ws2). split.
  - change (lit "{{") with [LBRACE; LBRACE].
    change (lit "}}") with [RBRACE; RBRACE].
    simpl. rewrite <- !app_assoc. reflexivity.
  - unfold placeholder_text. apply andb_true_intro. split.
    + destruct ws1; [|reflexivity]. destruct core; [congruence|reflexivity].
    + rewrite !forallb_app, Hcore, !space_not_rbrace by assumption. reflexivity.
Qed.

(** The key captured in [{{ inner }}] is [inner] up to surrounding blanks. *)
Lemma placeholder_exec_complete (inner rest : jsstring) :
  placeholder_text inner = true ->
  exists key, placeholder_exec (lit "{{" ++ inner ++ lit "}}" ++ rest)
              = Some (key, rest)
              /\ trim key = trim inner.
Proof.
  unfold placeholder_text. intros Hin. apply andb_prop in Hin as [Hne Hnr].
  change (lit "{{") with [LBRACE; LBRACE].
  change (lit "}}") with [RBRACE; RBRACE].
  unfold placeholder_exec. simpl app. unfold chr at 1 2. rewrite !N.eqb_refl.
  set (k2 := fun key : jsstring =>
               star is_space (chr RBRACE (chr RBRACE
                 (fun rest0 : jsstring => Some (key, rest0))))).
  (* the group alone, on a non-empty text without closing brace *)
  assert (Hgroup : forall core, core <> [] -> forallb not_rbrace core = true ->
            plus_capture not_rbrace k2 [] (core ++ RBRACE :: RBRACE :: rest)
            = Some (core, rest)).
  { intros core Hc Hcls. apply plus_capture_all; auto. }
  induction inner as [|x inner IH]; [discriminate|].
  simpl in Hnr. apply andb_prop in Hnr as [Hx Hnr].
  assert (Hhere : plus_capture not_rbrace k2 []
                    ((x :: inner) ++ RBRACE :: RBRACE :: rest)
                  = Some (x :: inner, rest)).
  { apply Hgroup; [discriminate|]. simpl. rewrite Hx, Hnr. reflexivity. }
  destruct (is_space x) eqn:Hsp.
  - simpl app. simpl star. rewrite Hsp.
    destruct inner as [|y inner].
    + simpl app. exists [x]. split; [|reflexivity].
      replace (star is_space (plus_capture not_rbrace k2 [])
                 (RBRACE :: RBRACE :: rest)) with (@None (jsstring * jsstring))
        by reflexivity.
      exact Hhere.
    + destruct (IH eq_refl Hnr) as (key & Hkey & Htrim).
      exists key. rewrite Hkey. split; [reflexivity|].
      rewrite Htrim. symmetry. apply trim_space_cons. exact Hsp.
  - exists (x :: inner). split; [|reflexivity].
    simpl app. rewrite star_stop by exact Hsp. exact Hhere.
Qed.

(** ** Global replacement *)

Lemma prepend_nil (r : Error + jsstring) : prepend [] r = r.
Proof. destruct r; reflexivity. Qed.

Lemma prepend_app (p q : jsstring) (r : Error + jsstring) :
  prepend (p ++ q) r = prepend p (prepend q r).
Proof. destruct r; simpl; [reflexivity|]. rewrite app_assoc. reflexivity. Qed.

Lemma prepend_cons (a : N) (t : jsstring) (r : Error + jsstring) :
  prepend (a :: t) r = prepend [a] (prepend t r).
Proof. exact (prepend_app [a] t r). Qed.

Lemma replace_placeholders_skip f (m s : jsstring) :
  replace_placeholders f (length m) (m ++ s) = replace_placeholders f 0 s.
Proof. induction m as [|a m IH]; simpl; auto. Qed.

Lemma replace_placeholders_here f (c : N) (t : jsstring) :
  replace_placeholders f 0 (c :: t)
  = match placeholder_exec (c :: t) with
    | Some (key, rest) =>
        and_then (f key) (fun text =>
          prepend text (replace_placeholders f (length t - length rest) t))
    | None => prepend [c] (replace_placeholders f 0 t)
    end.
Proof. reflexivity. Qed.

(** A match leaves [LBRACE :: m ++ rest] with [m] the rest of the match. *)
Lemma placeholder_exec_span (s key rest : jsstring) :
  placeholder_exec s = Some (key, rest) ->
  exists m, s = LBRACE :: m ++ rest.
Proof.
  intros Hm. destruct (placeholder_exec_inv _ _ _ Hm) as (inner & Hs & _).
  exists (LBRACE :: inner ++ [RBRACE; RBRACE]). rewrite Hs.
  change (lit "{{") with [LBRACE; LBRACE].
  change (lit "}}") with [RBRACE; RBRACE].
  simpl. rewrite <- (app_assoc inner [RBRACE; RBRACE] rest). reflexivity.
Qed.

(** At a match the callback's result replaces it and the scan resumes right
    after the match. *)
Lemma replace_placeholders_match f (s key rest : jsstring) :
  placeholder_exec s = Some (key, rest) ->
  replace_placeholders f 0 s
  = and_then (f key) (fun text => prepend text (replace_placeholders f 0 rest)).
Proof.
  intros Hm. destruct (placeholder_exec_span _ _ _ Hm) as [m ->].
  rewrite replace_placeholders_here, Hm.
  replace (length (m ++ rest) - length rest)%nat with (length m)
    by (rewrite length_app; lia).
  rewrite replace_placeholders_skip. reflexivity.
Qed.

(** Where nothing matches, the character is copied. *)
Lemma replace_placeholders_copy f (c : N) (t : jsstring) :
  placeholder_exec (c :: t) = None ->
  replace_placeholders f 0 (c :: t) = prepend [c] (replace_placeholders f 0 t).
Proof. intros Hm. rewrite replace_placeholders_here, Hm. reflexivity. Qed.

Lemma placeholder_exec_open (s key rest : jsstring) :
  placeholder_exec s = Some (key, rest) ->
  exists t, s = LBRACE :: LBRACE :: t.
Proof.
  intros Hm. destruct (placeholder_exec_inv _ _ _ Hm) as (inner & -> & _).
  eexists. reflexivity.
Qed.

Lemma replace_placeholders_plain f (t s : jsstring) :
  plain_text t = true ->
  replace_placeholders f 0 (t ++ s) = prepend t (replace_placeholders f 0 s).
Proof.
  unfold plain_text. induction t as [|a t IH]; [symmetry; apply prepend_nil|].
  intros Hplain. apply negb_true_iff in Hplain.
  simpl app. rewrite replace_placeholders_copy.
  - rewrite (prepend_cons a t). rewrite IH; [reflexivity|]. apply negb_true_iff.
    destruct t as [|b t]; [reflexivity|].
    simpl in Hplain |- *. apply orb_false_elim in Hplain as [_ Hplain].
    exact Hplain.
  - destruct (placeholder_exec (a :: t ++ s)) as [[key rest]|] eqn:Hm;
      [|reflexivity].
    apply placeholder_exec_open in Hm as (u & Hu).
    injection Hu as -> Hu. exfalso.
    destruct t as [|b t].
    + discriminate Hplain.
    + simpl in Hu. injection Hu as -> _. discriminate Hplain.
Qed.

(** The keys the callback sees: the same scan. *)
Lemma placeholder_keys_skip (m s : jsstring) :
  placeholder_keys (length m) (m ++ s) = placeholder_keys 0 s.
Proof. induction m as [|a m IH]; simpl; auto. Qed.

Lemma placeholder_keys_match (s key rest : jsstring) :
  placeholder_exec s = Some (key, rest) ->
  placeholder_keys 0 s = key :: placeholder_keys 0 rest.
Proof.
  intros Hm. destruct (placeholder_exec_span _ _ _ Hm) as [m ->].
  cbn [placeholder_keys]. rewrite Hm.
  replace (length (m ++ rest) - length rest)%nat with (length m)
    by (rewrite length_app; lia).
  rewrite placeholder_keys_skip. reflexivity.
Qed.

Lemma placeholder_keys_copy (c : N) (t : jsstring) :
  placeholder_exec (c :: t) = None ->
  placeholder_keys 0 (c :: t) = placeholder_keys 0 t.
Proof. intros Hm. cbn [placeholder_keys]. rewrite Hm. reflexivity. Qed.

(** A replacement whose callback returns for every key it is given
    returns. *)
Lemma replace_placeholders_returns f (s : jsstring) :
  (forall key, In key (placeholder_keys 0 s) -> exists text, f key = inr text) ->
  exists r, replace_placeholders f 0 s = inr r.
Proof.
  remember (length s) as n eqn:Hn. revert s Hn.
  induction n as [n IH] using lt_wf_ind. intros s Hn Hf.
  destruct s as [|c t]; [exists []; reflexivity|].
  destruct (placeholder_exec (c :: t)) as [[key rest]|] eqn:Hm.
  - rewrite (replace_placeholders_match _ _ _ _ Hm).
    rewrite (placeholder_keys_match _ _ _ Hm) in Hf.
    destruct (Hf key (or_introl eq_refl)) as [text ->].
    destruct (placeholder_exec_span _ _ _ Hm) as [m Hs].
    destruct (IH (length rest)) with (s := rest) as [r ->];
      [rewrite Hn, Hs; cbn [length]; rewrite length_app; lia | reflexivity | |].
    + intros k Hk. apply Hf. right. exact Hk.
    + eexists. reflexivity.
  - rewrite (replace_placeholders_copy _ _ _ Hm).
    rewrite (placeholder_keys_copy _ _ Hm) in Hf.
    destruct (IH (length t)) with (s := t) as [r ->];
      [rewrite Hn; cbn [length]; lia | reflexivity | exact Hf |].
    eexists. reflexivity.
Qed.

(** When every key is replaced by the empty string, the result is no longer
    than the input. *)
Lemma replace_placeholders_shrinks f (s : jsstring) :
  (forall key, In key (placeholder_keys 0 s) -> f key = inr []) ->
  exists r, replace_placeholders f 0 s = inr r /\ (length r <= length s)%nat.
Proof.
  remember (length s) as n eqn:Hn. revert s Hn.
  induction n as [n IH] using lt_wf_ind. intros s Hn Hf.
  destruct s as [|c t]; [exists []; split; [reflexivity|simpl; lia]|].
  destruct (placeholder_exec (c :: t)) as [[key rest]|] eqn:Hm.
  - rewrite (replace_placeholders_match _ _ _ _ Hm).
    rewrite (placeholder_keys_match _ _ _ Hm) in Hf.
    rewrite (Hf key (or_introl eq_refl)).
    destruct (placeholder_exec_span _ _ _ Hm) as [m Hs].
    assert (Hlen : (length rest < length (c :: t))%nat)
      by (rewrite Hs; cbn [length]; rewrite length_app; lia).
    destruct (IH (length rest)) with (s := rest) as (r & -> & Hr);
      [rewrite Hn; exact Hlen | reflexivity | |].
    + intros k Hk. apply Hf. right. exact Hk.
    + exists r. split; [reflexivity|]. lia.
  - rewrite (replace_placeholders_copy _ _ _ Hm).
    rewrite (placeholder_keys_copy _ _ Hm) in Hf.
    destruct (IH (length t)) with (s := t) as (r & -> & Hr);
      [rewrite Hn; cbn [length]; lia | reflexivity | exact Hf |].
    exists (c :: r). split; [reflexivity|]. cbn [length] in Hn |- *. lia.
Qed.

Section ResolveFacts.
Context {H : Host}.
Implicit Types (vars : Vars).

Lemma resolveTemplate_replace (str : jsstring) vars :
  Processor.resolveTemplate str vars
  = replace_placeholders (lookup_var vars) 0 str.
Proof. destruct str; reflexivity. Qed.

Lemma resolveTemplate_nil vars : Processor.resolveTemplate [] vars = inr [].
Proof. reflexivity. Qed.

Lemma resolveTemplate_plain (t s : jsstring) vars :
  plain_text t = true ->
  Processor.resolveTemplate (t ++ s) vars
  = prepend t (Processor.resolveTemplate s vars).
Proof.
  intros Ht. rewrite !resolveTemplate_replace.
  apply replace_placeholders_plain. exact Ht.
Qed.

Lemma resolveTemplate_placeholder (inner s : jsstring) vars :
  placeholder_text inner = true ->
  Processor.resolveTemplate (lit "{{" ++ inner ++ lit "}}" ++ s) vars
  = and_then (lookup_var vars inner)
      (fun text => prepend text (Processor.resolveTemplate s vars)).
Proof.
  intros Hin. rewrite !resolveTemplate_replace.
  destruct (placeholder_exec_complete inner s Hin) as (key & Hm & Htrim).
  rewrite (replace_placeholders_match _ _ _ _ Hm).
  unfold lookup_var. rewrite Htrim. reflexivity.
Qed.

End ResolveFacts.

(** ** Markers *)

Lemma has_close_intro (b c : jsstring) :
  has_close (b ++ RBRACE :: RBRACE :: c) = true.
Proof.
  induction b as [|x b IH]; [reflexivity|].
  change ((x :: b) ++ RBRACE :: RBRACE :: c)
    with (x :: (b ++ RBRACE :: RBRACE :: c)).
  cbn [has_close]. rewrite IH.
  destruct (b ++ RBRACE :: RBRACE :: c) eqn:Hb.
  - destruct b; discriminate.
  - apply orb_true_r.
Qed.

Lemma has_close_elim (s : jsstring) :
  has_close s = true -> exists b c, s = b ++ RBRACE :: RBRACE :: c.
Proof.
  induction s as [|x s IH]; [discriminate|].
  cbn [has_close]. destruct s as [|y s]; [discriminate|].
  intros Hs. apply orb_prop in Hs as [Hs|Hs].
  - apply andb_prop in Hs as [->%N.eqb_eq ->%N.eqb_eq]. exists [], s. reflexivity.
  - destruct (IH Hs) as (b & c & ->). exists (x :: b), c. reflexivity.
Qed.

Lemma has_marker_intro (a b c : jsstring) :
  has_marker (a ++ LBRACE :: LBRACE :: b ++ RBRACE :: RBRACE :: c) = true.
Proof.
  induction a as [|x a IH].
  - change (has_marker ([] ++ LBRACE :: LBRACE :: b ++ RBRACE :: RBRACE :: c))
      with ((LBRACE =? LBRACE) && (LBRACE =? LBRACE)
            && has_close (b ++ RBRACE :: RBRACE :: c)
            || has_marker (LBRACE :: b ++ RBRACE :: RBRACE :: c)).
    rewrite has_close_intro. reflexivity.
  - change ((x :: a) ++ LBRACE :: LBRACE :: b ++ RBRACE :: RBRACE :: c)
      with (x :: (a ++ LBRACE :: LBRACE :: b ++ RBRACE :: RBRACE :: c)).
    cbn [has_marker]. rewrite IH.
    destruct (a ++ LBRACE :: LBRACE :: b ++ RBRACE :: RBRACE :: c) eqn:Ha.
    + destruct a; discriminate.
    + apply orb_true_r.
Qed.

Lemma has_marker_elim (s : jsstring) :
  has_marker s = true ->
  exists a b c, s = a ++ LBRACE :: LBRACE :: b ++ RBRACE :: RBRACE :: c.
Proof.
  induction s as [|x s IH]; [discriminate|].
  cbn [has_marker]. destruct s as [|y s]; [discriminate|].
  intros Hs. apply orb_prop in Hs as [Hs|Hs].
  - apply andb_prop in Hs as [Hs Hc]. apply andb_prop in Hs as [Hx Hy].
    apply N.eqb_eq in Hx as ->. apply N.eqb_eq in Hy as ->.
    destruct (has_close_elim _ Hc) as (b & c & ->).
    exists [], b, c. reflexivity.
  - destruct (IH Hs) as (a & b & c & ->). exists (x :: a), b, c. reflexivity.
Qed.

(** [has_marker] decides the presence of [{{ ... }}] in a string. *)
Lemma has_marker_spec (s : jsstring) :
  has_marker s = true
  <-> exists a b c, s = a ++ lit "{{" ++ b ++ lit "}}" ++ c.
Proof.
  change (lit "{{") with [LBRACE; LBRACE].
  change (lit "}}") with [RBRACE; RBRACE].
  split; [apply has_marker_elim|].
  intros (a & b & c & ->). apply has_marker_intro.
Qed.

Lemma has_marker_tail (x : N) (s : jsstring) :
  has_marker (x :: s) = false -> has_marker s = false.
Proof.
  cbn [has_marker]. destruct s as [|y s]; [reflexivity|].
  intros Hs. apply orb_false_elim in Hs as [_ Hs]. exact Hs.
Qed.

Lemma placeholder_exec_marker (s key rest : jsstring) :
  placeholder_exec s = Some (key, rest) -> has_marker s = true.
Proof.
  intros Hm. destruct (placeholder_exec_inv _ _ _ Hm) as (inner & -> & _).
  exact (has_marker_intro [] inner rest).
Qed.

Lemma replace_placeholders_no_marker f (s : jsstring) :
  has_marker s = false -> replace_placeholders f 0 s = inr s.
Proof.
  induction s as [|x s IH]; [reflexivity|].
  intros Hs. rewrite replace_placeholders_copy.
  - rewrite IH by exact (has_marker_tail _ _ Hs). reflexivity.
  - destruct (placeholder_exec (x :: s)) as [[key rest]|] eqn:Hm;
      [|reflexivity].
    apply placeholder_exec_marker in Hm. congruence.
Qed.


(** ** Template resolution *)


(** C5. A string without any [{{ ... }}] marker is returned unchanged. *)
Theorem resolveTemplate_no_marker {H : Host} (s : jsstring) (vars : Vars) :
  has_marker s = false -> Processor.resolveTemplate s vars = inr s.
Proof.
  intros Hs. rewrite resolveTemplate_replace.
  apply replace_placeholders_no_marker. exact Hs.
Qed.

(** ** Logging *)

Section LoggingFacts.
Context {H : Host}.
Implicit Types (w : World) (file : LogFile).

Lemma appended_logs file (text : jsstring) w :
  logs (appended file text w) file = logs w file ++ text
  /\ (forall f, f <> file -> logs (appended file text w) f = logs w f).
Proof.
  unfold appended; cbn [logs]. split.
  - destruct (decide (file = file)); [reflexivity|congruence].
  - intros f Hf. destruct (decide (f = file)); [congruence|reflexivity].
Qed.

(** What [logToFile] does: one timestamped line added, or the exception of
    the append and nothing written. *)
Lemma logToFile_run file (message : jsstring) w :
  Processor.logToFile file message w
  = match append_fault w file with
    | Some e => (inl e, w)
    | None => (inr tt, appended file (log_line (clock w) message) w)
    end.
Proof.
  unfold Processor.logToFile, bind, gets, appendFileSync, log_line.
  destruct (append_fault w file); reflexivity.
Qed.

Lemma utils_logToFile file (message : jsstring) :
  CustomArtilleryUtils.logToFile file message
  = Processor.logToFile file message.
Proof. reflexivity. Qed.

Lemma log_appended_refl w : log_appended w w.
Proof. intros f. exists []. symmetry. apply app_nil_r. Qed.

Lemma log_appended_trans w1 w2 w3 :
  log_appended w1 w2 -> log_appended w2 w3 -> log_appended w1 w3.
Proof.
  intros H12 H23 f. destruct (H12 f) as [s1 E1]. destruct (H23 f) as [s2 E2].
  exists (s1 ++ s2). rewrite E2, E1, app_assoc. reflexivity.
Qed.

Lemma log_appended_appended file (text : jsstring) w :
  log_appended w (appended file text w).
Proof.
  intros f. destruct (appended_logs file text w) as (Hlog & Hother).
  destruct (decide (f = file)) as [->|Hf].
  - eexists. exact Hlog.
  - exists []. rewrite app_nil_r. apply Hother, Hf.
Qed.

Lemma log_appended_logToFile file (message : jsstring) w :
  log_appended w (Processor.logToFile file message w).2.
Proof.
  rewrite logToFile_run. destruct (append_fault w file); cbn [snd];
    [apply log_appended_refl|apply log_appended_appended].
Qed.

Lemma log_appended_call_recorded opts creds w :
  log_appended w (call_recorded opts creds w).
Proof. intros f. exists []. symmetry. apply app_nil_r. Qed.
End LoggingFacts.

(** ** The signing hook *)

Section SigningFacts.
Context {H : Host}.
Variable env : ProcessEnv.
Implicit Types (r : RequestParams) (vars : Vars) (w : World)
  (body : option jsstring).

Lemma headers_prepared r body : headers (prepared r body) = headers r.
Proof. unfold prepared. destruct body; reflexivity. Qed.

Lemma method_prepared r body : method (prepared r body) = method r.
Proof. unfold prepared. destruct body; reflexivity. Qed.

Lemma url_prepared r body : url (prepared r body) = url r.
Proof. unfold prepared. destruct body; reflexivity. Qed.

Lemma body_logged_frame body w :
  clock (body_logged body w) = clock w
  /\ aws4_calls (body_logged body w) = aws4_calls w
  /\ append_fault (body_logged body w) = append_fault w.
Proof. unfold body_logged. destruct (body_message body); auto. Qed.

Lemma log_appended_body_logged body w : log_appended w (body_logged body w).
Proof.
  unfold body_logged. destruct (body_message body);
    [apply log_appended_appended|apply log_appended_refl].
Qed.

(** What one call of [signRequest] does, step by step. *)
Lemma signRequest_run r vars w :
  Processor.signRequest env r vars w =
  match parsed_url r vars with
  | inl e => (inr (NextErr e), r, w)
  | inr parsedUrl =>
      match signed_body r vars with
      | inl e => (inr (NextErr e), r, w)
      | inr body =>
          match body_log_fault body w with
          | Some e => (inr (NextErr e), prepared r body, w)
          | None =>
              let opts := signing_options env r body parsedUrl in
              let creds := Some (env_credentials env) in
              let w' := call_recorded opts creds (body_logged body w) in
              match aws4_sign env opts creds (clock w) with
              | inl e => (inr (NextErr e), prepared r body, w')
              | inr signed =>
                  (inr Next,
                   set_headers (signed_headers signed)
                     (set_url (canonicalPath parsedUrl) (prepared r body)),
                   w')
              end
          end
      end
  end.
Proof.
  unfold Processor.signRequest, Processor.signRequest_try, try_catch, bind,
    gets, lift, modify, ret, in_world, call_aws4_sign, parsed_url, signed_body,
    and_then, on_req; cbn [req world].
  destruct (Processor.resolveTemplate (url r) vars) as [e|resolvedUrl];
    [reflexivity|].
  destruct (url_parse resolvedUrl) as [e|parsedUrl]; [reflexivity|].
  unfold body_log_fault, body_logged, body_message.
  destruct r as [u m h j b]; cbn [json].
  destruct j as [j|]; [destruct (truthy j)|].
  - destruct (Processor.resolveTemplate (JSON_stringify j) vars) as [e|text];
      [reflexivity|].
    cbn [req world prepared].
    destruct (is_empty text).
    + cbn [req world]. destruct (aws4_sign _ _ _ _); reflexivity.
    + rewrite !logToFile_run. cbn [req world].
      destruct (append_fault w DEBUG_LOG); [reflexivity|].
      cbn [req world]. destruct (aws4_sign _ _ _ _); reflexivity.
  - cbn [req world]. destruct (aws4_sign _ _ _ _); reflexivity.
  - cbn [req world]. destruct (aws4_sign _ _ _ _); reflexivity.
Qed.

(** When every step before it succeeds, [signRequest] calls the signer once,
    with the resolved path and body and the credentials read from the
    environment. *)
Lemma signRequest_calls_signer r vars w (parsedUrl : UrlObject) body :
  parsed_url r vars = inr parsedUrl ->
  signed_body r vars = inr body ->
  body_log_fault body w = None ->
  aws4_calls (Processor.signRequest env r vars w).2
  = aws4_calls w
    ++ [(signing_options env r body parsedUrl, Some (env_credentials env))].
Proof.
  intros Hparse Hbody Hlog. rewrite signRequest_run, Hparse, Hbody, Hlog.
  cbv zeta.
  destruct (aws4_sign _ _ _ _); cbn [snd call_recorded aws4_calls];
    rewrite (proj1 (proj2 (body_logged_frame body w))); reflexivity.
Qed.

(** The calls of the signer after a run: the earlier ones and at most one
    more, made with the credentials of the environment. *)
Lemma signRequest_calls r vars w :
  aws4_calls (Processor.signRequest env r vars w).2 = aws4_calls w
  \/ exists parsedUrl body,
       aws4_calls (Processor.signRequest env r vars w).2
       = aws4_calls w
         ++ [(signing_options env r body parsedUrl,
              Some (env_credentials env))].
Proof.
  destruct (parsed_url r vars) as [e|parsedUrl] eqn:Hparse;
    [left; rewrite signRequest_run, Hparse; reflexivity|].
  destruct (signed_body r vars) as [e|body] eqn:Hbody;
    [left; rewrite signRequest_run, Hparse, Hbody; reflexivity|].
  destruct (body_log_fault body w) as [e|] eqn:Hlog;
    [left; rewrite signRequest_run, Hparse, Hbody, Hlog; reflexivity|].
  right. exists parsedUrl, body. apply signRequest_calls_signer; assumption.
Qed.

(** The body handed to the signer and the body left on the descriptor are
    the same resolved text. *)
Lemma signRequest_signs_resolved_body r vars w (parsedUrl : UrlObject)
    (j : data) (resolved : jsstring) :
  parsed_url r vars = inr parsedUrl ->
  json r = Some j -> truthy j = true ->
  Processor.resolveTemplate (JSON_stringify j) vars = inr resolved ->
  signed_body r vars = inr (Some resolved)
  /\ opt_body (signing_options env r (Some resolved) parsedUrl)
     = Some resolved
  /\ body (Processor.signRequest env r vars w).1.2
     = Some (BodyText resolved).
Proof.
  intros Hparse Hj Ht Hres.
  assert (Hbody : signed_body r vars = inr (Some resolved)).
  { unfold signed_body. rewrite Hj, Ht, Hres. reflexivity. }
  split; [exact Hbody|]. split; [reflexivity|].
  rewrite signRequest_run, Hparse, Hbody.
  destruct (body_log_fault _ w); [reflexivity|]. cbv zeta.
  destruct (aws4_sign _ _ _ _); reflexivity.
Qed.
End SigningFacts.

(** ** Signing: errors *)

Section ErrorFacts.
Context {H : Host}.
Variable env : ProcessEnv.
Implicit Types (r : RequestParams) (vars : Vars) (w : World).

(** What one call of [custom-signer.js] does, step by step. *)
Lemma custom_signer_run r w :
  CustomSigner.signRequest env r w =
  match url_parse (url r) with
  | inl e => (inr (NextErr e), r, w)
  | inr parsedUrl =>
      let opts := custom_signer_options r parsedUrl in
      let w' := call_recorded opts None w in
      match aws4_sign env opts None (clock w) with
      | inl e => (inr (NextErr e), r, w')
      | inr signed =>
          (inr Next, legacy_signed (signed_headers signed) r, w')
      end
  end.
Proof.
  unfold CustomSigner.signRequest, CustomSigner.signRequest_try, try_catch,
    bind, gets, lift, modify, ret, in_world, call_aws4_sign, on_req;
    cbn [req world].
  destruct (url_parse (url r)) as [e|parsedUrl]; [reflexivity|].
  fold (serialized_body r). fold (custom_signer_options r parsedUrl). cbv zeta.
  destruct (aws4_sign _ _ _ _) as [e|signed]; [reflexivity|].
  unfold legacy_signed. cbn [req world].
  destruct (serialized_body r) as [b|]; [destruct (is_empty b)|];
    reflexivity.
Qed.

Lemma custom_signer_outcome r w :
  (CustomSigner.signRequest env r w).1.1
  = match custom_signer_first_throw env r w with
    | Some e => inr (NextErr e)
    | None => inr Next
    end
  /\ (length (aws4_calls (CustomSigner.signRequest env r w).2)
      <= S (length (aws4_calls w)))%nat.
Proof.
  rewrite custom_signer_run. unfold custom_signer_first_throw.
  destruct (url_parse (url r)) as [e|parsedUrl]; [cbn; split; [reflexivity|lia]|].
  cbv zeta. destruct (aws4_sign _ _ _ _) as [e|signed];
    cbn [fst snd call_recorded aws4_calls]; rewrite length_app; cbn [length];
    (split; [reflexivity|lia]).
Qed.

Lemma signRequest_outcome r vars w :
  (Processor.signRequest env r vars w).1.1
  = match first_throw env r vars w with
    | Some e => inr (NextErr e)
    | None => inr Next
    end.
Proof.
  rewrite signRequest_run. unfold first_throw.
  destruct (parsed_url r vars) as [e|parsedUrl]; [reflexivity|].
  destruct (signed_body r vars) as [e|body]; [reflexivity|].
  destruct (body_log_fault body w) as [e|]; [reflexivity|]. cbv zeta.
  destruct (aws4_sign _ _ _ _); reflexivity.
Qed.

(** An error passed to [next] leaves the headers of the descriptor alone. *)
Lemma signRequest_error_headers r vars w e :
  (Processor.signRequest env r vars w).1.1 = inr (NextErr e) ->
  headers (Processor.signRequest env r vars w).1.2 = headers r
  /\ url (Processor.signRequest env r vars w).1.2 = url r.
Proof.
  rewrite signRequest_run.
  destruct (parsed_url r vars) as [e0|parsedUrl]; [split; reflexivity|].
  destruct (signed_body r vars) as [e0|body]; [split; reflexivity|].
  destruct (body_log_fault body w) as [e0|];
    [split; [apply headers_prepared|apply url_prepared]|].
  cbv zeta. destruct (aws4_sign _ _ _ _); cbn [fst snd];
    [split; [apply headers_prepared|apply url_prepared]|discriminate].
Qed.
End ErrorFacts.

(** C4. Whatever step of [signRequest] throws first (the conversion of a
    value during template resolution, URL parsing, the append to the debug
    log, the signer), the hook ends with [next(err)] for the error thrown,
    and it ends with [next()] only when no step threw; it never ends with an
    exception of its own; the signer is called at most once, so nothing is
    retried.  The same holds for [custom-signer.js]. *)
Theorem signRequest_surfaces_errors {H : Host} (env : ProcessEnv)
    (r : RequestParams) (vars : Vars) (w : World) :
  (Processor.signRequest env r vars w).1.1
  = match first_throw env r vars w with
    | Some e => inr (NextErr e)
    | None => inr Next
    end
  /\ (length (aws4_calls (Processor.signRequest env r vars w).2)
      <= S (length (aws4_calls w)))%nat
  /\ (CustomSigner.signRequest env r w).1.1
     = match custom_signer_first_throw env r w with
       | Some e => inr (NextErr e)
       | None => inr Next
       end
  /\ (length (aws4_calls (CustomSigner.signRequest env r w).2)
      <= S (length (aws4_calls w)))%nat.
Proof.
  split; [apply signRequest_outcome|]. split; [|apply custom_signer_outcome].
  destruct (signRequest_calls env r vars w) as [->|(parsedUrl & body & ->)];
    [|rewrite length_app; cbn [length]]; lia.
Qed.

(** ** Signing: determinism *)


(** ** Signing: credentials *)

(** C3, as amended. [signRequest] does not check the credentials: when the
    steps before it succeed, the signer is called with what the environment
    holds, missing keys included, and no call is ever made with anything
    else.  When the hook ends with [next(err)], the descriptor keeps the
    headers it had: no [Authorization] header is added on that path. *)
Theorem signRequest_failure_keeps_headers {H : Host} (env : ProcessEnv)
    (r : RequestParams) (vars : Vars) (w : World) :
  let res := Processor.signRequest env r vars w in
  (forall parsedUrl body,
      parsed_url r vars = inr parsedUrl -> signed_body r vars = inr body ->
      body_log_fault body w = None ->
      aws4_calls res.2
      = aws4_calls w
        ++ [(signing_options env r body parsedUrl,
             Some (env_credentials env))])
  /\ (forall c, c ∈ aws4_calls res.2 ->
                c ∈ aws4_calls w \/ c.2 = Some (env_credentials env))
  /\ (forall e, res.1.1 = inr (NextErr e) -> headers res.1.2 = headers r).
Proof.
  cbv zeta. split; [|split].
  - intros parsedUrl body. apply signRequest_calls_signer.
  - intros c.
    destruct (signRequest_calls env r vars w) as [->|(parsedUrl & body & ->)];
      [auto|].
    rewrite elem_of_app, list_elem_of_singleton. intros [Hold| ->]; auto.
  - intros e He. apply (signRequest_error_headers env r vars w e He).
Qed.

(** ** Signing: headers *)

Section HeaderFacts.
Context {H : Host}.
Variable env : ProcessEnv.
Implicit Types (r : RequestParams) (vars : Vars) (w : World).

Lemma signing_options_Host r (h1 h2 : Headers) body (parsedUrl : UrlObject) :
  (forall k, k <> lit "Host" -> h1 !! k = h2 !! k) ->
  signing_options env (set_headers h1 r) body parsedUrl
  = signing_options env (set_headers h2 r) body parsedUrl.
Proof.
  intros Hagree. unfold signing_options; cbn [set_headers method headers
    default]. f_equal.
  apply map_eq. intros k. destruct (decide (k = lit "Host")) as [->|Hk].
  - rewrite !lookup_insert_eq. reflexivity.
  - rewrite !lookup_insert_ne by (intros Heq; apply Hk; symmetry; exact Heq).
    apply Hagree, Hk.
Qed.
End HeaderFacts.

(** X21. The headers of the descriptor reach the signer as they are, except
    its own [Host], which is replaced by [TARGET_HOST]: descriptors that
    differ only in the value of their [Host] header end the same way, make
    the same call of the signer, leave the same world and, when they succeed,
    the same descriptor. *)
Theorem signRequest_overwrites_Host {H : Host} (env : ProcessEnv)
    (r : RequestParams) (h1 h2 : Headers) (vars : Vars) (w : World) :
  (forall k, k <> lit "Host" -> h1 !! k = h2 !! k) ->
  let res1 := Processor.signRequest env (set_headers h1 r) vars w in
  let res2 := Processor.signRequest env (set_headers h2 r) vars w in
  (forall c, c ∈ aws4_calls res1.2 ->
     c ∈ aws4_calls w
     \/ forall k, opt_headers c.1 !! k
                  = if decide (k = lit "Host")
                    then Some (Processor.TARGET_HOST env)
                    else h1 !! k)
  /\ res1.1.1 = res2.1.1
  /\ res1.2 = res2.2
  /\ (res1.1.1 = inr Next -> res1.1.2 = res2.1.2).
Proof.
  intros Hagree. cbv zeta. split.
  { intros c.
    destruct (signRequest_calls env (set_headers h1 r) vars w)
      as [->|(parsedUrl & body & ->)]; [auto|].
    rewrite elem_of_app, list_elem_of_singleton. intros [Hold| ->]; [auto|].
    right. intros k. unfold signing_options;
      cbn [fst opt_headers set_headers headers default].
    destruct (decide (k = lit "Host")) as [->|Hk].
    - apply lookup_insert_eq.
    - apply lookup_insert_ne. intros Heq. apply Hk. symmetry. exact Heq. }
  rewrite !signRequest_run.
  change (parsed_url (set_headers h1 r) vars) with (parsed_url r vars).
  change (parsed_url (set_headers h2 r) vars) with (parsed_url r vars).
  change (signed_body (set_headers h1 r) vars) with (signed_body r vars).
  change (signed_body (set_headers h2 r) vars) with (signed_body r vars).
  destruct (parsed_url r vars) as [e|parsedUrl];
    [split; [reflexivity|split; [reflexivity|discriminate]]|].
  destruct (signed_body r vars) as [e|body];
    [split; [reflexivity|split; [reflexivity|discriminate]]|].
  destruct (body_log_fault body w) as [e|];
    [split; [reflexivity|split; [reflexivity|discriminate]]|].
  cbv zeta. rewrite (signing_options_Host env r h1 h2 body parsedUrl Hagree).
  destruct (aws4_sign _ _ _ _) as [e|signed]; cbn [fst snd].
  - split; [reflexivity|split; [reflexivity|discriminate]].
  - split; [reflexivity|split; [reflexivity|]]. intros _.
    unfold prepared. destruct body; reflexivity.
Qed.

(** ** Signing: the descriptor handed back *)

(** A successful run went through every step. *)
Lemma signRequest_success_inv {H : Host} (env : ProcessEnv)
    (r r' : RequestParams) (vars : Vars) (w w' : World) :
  Processor.signRequest env r vars w = (inr Next, r', w') ->
  exists parsedUrl payload signed,
    parsed_url r vars = inr parsedUrl
    /\ signed_body r vars = inr payload
    /\ url r' = or_null (pathname parsedUrl) ++ or_else (search parsedUrl) []
    /\ headers r' = Some (signed_headers signed)
    /\ match payload with
       | Some b => json r' = None /\ body_text r' = Some b
       | None => json r' = json r /\ body r' = body r
       end.
Proof.
  rewrite signRequest_run.
  destruct (parsed_url r vars) as [e|parsedUrl]; [discriminate|].
  destruct (signed_body r vars) as [e|payload]; [discriminate|].
  destruct (body_log_fault payload w) as [e|]; [discriminate|]. cbv zeta.
  destruct (aws4_sign _ _ _ _) as [e|signed]; [discriminate|].
  intros [= <- <-]. exists parsedUrl, payload, signed.
  split; [reflexivity|]. split; [reflexivity|]. split; [reflexivity|].
  split; [reflexivity|].
  unfold prepared. destruct payload; split; reflexivity.
Qed.

(** ** Fixtures *)

(** What one call of [loadCsvData] does. *)
Lemma loadCsvData_run {H : Host} (filePath : jsstring) (w : World) :
  Processor.loadCsvData filePath w =
  match csv_records w filePath with
  | inl err => load_caught filePath err w
  | inr records =>
      match append_fault w DEBUG_LOG with
      | Some err => load_caught filePath err w
      | None =>
          (inr records,
           appended DEBUG_LOG
             (log_line (clock w) (loaded_message records filePath)) w)
      end
  end.
Proof.
  assert (Hcaught : forall err,
            (let '(res, w') :=
               Processor.logToFile ERROR_LOG
                 (lit "CSV Load Failed for " ++ filePath ++ lit ": "
                  ++ message err) w in
             match res with
             | inr _ => (inr [], w')
             | inl e => (inl e, w')
             end) = load_caught filePath err w).
  { intros err. rewrite logToFile_run. unfold load_caught.
    destruct (append_fault w ERROR_LOG); reflexivity. }
  unfold Processor.loadCsvData, try_catch, bind, lift, ret, readFileSync,
    csv_records, and_then.
  destruct (disk w filePath) as [err|content]; [apply Hcaught|].
  destruct (csv_parse content) as [err|records]; [apply Hcaught|].
  rewrite logToFile_run.
  destruct (append_fault w DEBUG_LOG) as [err|]; [apply Hcaught|reflexivity].
Qed.

(** C8, as amended. [loadCsvData] returns the records parsed from the file,
    in order, after one line added to the debug log.  When the file cannot
    be read or parsed, and also when that debug line cannot be written, it
    appends one line with the message of the error to the error log and
    returns the empty sequence.  It throws only when the error log itself
    cannot be written: the exception of that append reaches the caller.  The
    copy in the utilities script behaves the same. *)
Theorem loadCsvData_never_throws {H : Host} (filePath : jsstring) (w : World) :
  (forall records,
      csv_records w filePath = inr records ->
      append_fault w DEBUG_LOG = None ->
      Processor.loadCsvData filePath w
      = (inr records,
         appended DEBUG_LOG
           (log_line (clock w) (loaded_message records filePath)) w))
  /\ (forall err,
        csv_records w filePath = inl err
        \/ (exists records, csv_records w filePath = inr records
                            /\ append_fault w DEBUG_LOG = Some err) ->
        match append_fault w ERROR_LOG with
        | None =>
            Processor.loadCsvData filePath w
            = (inr [],
               appended ERROR_LOG
                 (log_line (clock w) (load_failed_message filePath err)) w)
        | Some thrown => Processor.loadCsvData filePath w = (inl thrown, w)
        end)
  /\ (append_fault w ERROR_LOG = None ->
      exists records, (Processor.loadCsvData filePath w).1 = inr records)
  /\ CustomArtilleryUtils.loadCsvData filePath w
     = Processor.loadCsvData filePath w.
Proof.
  split; [|split; [|split; [|reflexivity]]].
  - intros records Hrec Hlog. rewrite loadCsvData_run, Hrec, Hlog. reflexivity.
  - intros err Herr. rewrite loadCsvData_run.
    assert (Hcaught : match append_fault w ERROR_LOG with
                      | None =>
                          load_caught filePath err w
                          = (inr [],
                             appended ERROR_LOG
                               (log_line (clock w)
                                  (load_failed_message filePath err)) w)
                      | Some thrown =>
                          load_caught filePath err w = (inl thrown, w)
                      end).
    { unfold load_caught. destruct (append_fault w ERROR_LOG); reflexivity. }
    destruct Herr as [->|(records & -> & ->)]; exact Hcaught.
  - intros Hlog. rewrite loadCsvData_run. unfold load_caught. rewrite Hlog.
    destruct (csv_records w filePath) as [err|records];
      [eexists; reflexivity|].
    destruct (append_fault w DEBUG_LOG); eexists; reflexivity.
Qed.

(** ** Responses *)

Section ResponseFacts.
Context {H : Host}.
Variable env : ProcessEnv.
Implicit Types (requestParams : RequestParams) (w : World).


End ResponseFacts.


(** * Further properties *)

(** ** The placeholder pattern *)

(** X1. The pattern matches at the start of a string exactly when the string
    opens with [{{], a non-empty text free of [}], and [}}]: an empty
    placeholder and one with a lone closing brace inside are not matched. *)
Theorem placeholder_exec_matches (s : jsstring) :
  is_Some (placeholder_exec s)
  <-> exists inner rest, s = lit "{{" ++ inner ++ lit "}}" ++ rest
                         /\ placeholder_text inner = true.
Proof.
  split.
  - intros [[key rest] Hm].
    destruct (placeholder_exec_inv _ _ _ Hm) as (inner & Hs & Hin).
    exists inner, rest. split; assumption.
  - intros (inner & rest & -> & Hin).
    destruct (placeholder_exec_complete inner rest Hin) as (key & Hm & _).
    rewrite Hm. eexists. reflexivity.
Qed.

(** X2. When every placeholder of a template names a property that is
    [undefined] in the context (neither its own nor inherited), resolving
    the template only deletes text: it returns, and the result is never
    longer than the template. *)
Theorem resolveTemplate_undefined_shrinks {H : Host} (s : jsstring)
    (vars : Vars) :
  (forall key, In key (placeholder_keys 0 s) ->
               property_of vars (trim key) = None) ->
  exists resolved,
    Processor.resolveTemplate s vars = inr resolved
    /\ (length resolved <= length s)%nat.
Proof.
  intros Hundef. rewrite resolveTemplate_replace.
  apply replace_placeholders_shrinks.
  intros key Hkey. unfold lookup_var. rewrite (Hundef key Hkey). reflexivity.
Qed.

(** ** The signing hook: failures and frame *)

(** X3. When the URL cannot be resolved or the resolved URL does not parse,
    [signRequest] ends with [next(err)] and has changed nothing: the
    descriptor and the world are as they were, and the signer was not
    called. *)
Theorem signRequest_parse_failure_untouched {H : Host} (env : ProcessEnv)
    (r : RequestParams) (vars : Vars) (w : World) (e : Error) :
  parsed_url r vars = inl e ->
  Processor.signRequest env r vars w = (inr (NextErr e), r, w).
Proof. intros Hparse. rewrite signRequest_run, Hparse. reflexivity. Qed.

(** X4. A failure after the body preparation is not rolled back.  Once a
    truthy [json] payload has been resolved, the descriptor that
    [signRequest] hands back has lost [json] and holds the resolved
    serialisation in [body], however the hook ends; when it ends with
    [next(err)], [url] and [headers] are still the original ones; and it
    does end with [next(err)] when the signer throws. *)
Theorem signRequest_signer_failure_keeps_body {H : Host} (env : ProcessEnv)
    (r : RequestParams) (vars : Vars) (w : World)
    (parsedUrl : UrlObject) (j : data) (resolved : jsstring) :
  parsed_url r vars = inr parsedUrl ->
  json r = Some j -> truthy j = true ->
  Processor.resolveTemplate (JSON_stringify j) vars = inr resolved ->
  let res := Processor.signRequest env r vars w in
  has_json res.1.2 = false
  /\ body_text res.1.2 = Some resolved
  /\ (forall e, res.1.1 = inr (NextErr e) ->
                url res.1.2 = url r /\ headers res.1.2 = headers r)
  /\ (forall e,
        body_log_fault (Some resolved) w = None ->
        aws4_sign env (signing_options env r (Some resolved) parsedUrl)
          (Some (env_credentials env)) (clock w) = inl e ->
        res.1.1 = inr (NextErr e)).
Proof.
  intros Hparse Hj Ht Hres. cbv zeta.
  destruct (signRequest_signs_resolved_body env r vars w parsedUrl j resolved
              Hparse Hj Ht Hres) as (Hbody & _ & Hset).
  split; [|split; [|split]].
  - rewrite signRequest_run, Hparse, Hbody.
    destruct (body_log_fault _ w); [reflexivity|]. cbv zeta.
    destruct (aws4_sign _ _ _ _); reflexivity.
  - unfold body_text. rewrite Hset. reflexivity.
  - intros e He.
    destruct (signRequest_error_headers env r vars w e He) as [Hh Hu].
    split; assumption.
  - intros e Hlog Hsign. rewrite signRequest_run, Hparse, Hbody, Hlog.
    cbv zeta. rewrite Hsign. reflexivity.
Qed.

(** X5. The signed body comes from [json] only.  For a descriptor without a
    truthy [json] the signer receives no body, whatever [body] holds; [body]
    is left as it is and nothing is logged. *)
Theorem signRequest_body_only_from_json {H : Host} (env : ProcessEnv)
    (r : RequestParams) (vars : Vars) (w : World) (parsedUrl : UrlObject) :
  signed_body r vars = inr None ->
  parsed_url r vars = inr parsedUrl ->
  let res := Processor.signRequest env r vars w in
  (exists o creds, aws4_calls res.2 = aws4_calls w ++ [(o, creds)]
                   /\ opt_body o = None)
  /\ body res.1.2 = body r
  /\ forall f, logs res.2 f = logs w f.
Proof.
  intros Hbody Hparse. cbv zeta. split; [|split].
  - exists (signing_options env r None parsedUrl), (Some (env_credentials env)).
    split; [|reflexivity].
    apply signRequest_calls_signer; [exact Hparse|exact Hbody|reflexivity].
  - rewrite signRequest_run, Hparse, Hbody. cbn.
    destruct (aws4_sign _ _ _ _); reflexivity.
  - intros f. rewrite signRequest_run, Hparse, Hbody. cbn.
    destruct (aws4_sign _ _ _ _); reflexivity.
Qed.

(** X6. Signing is not repeatable: a descriptor that [signRequest] has signed
    carries its payload in [body], so signing it again hands the signer no
    body at all. *)
Theorem signRequest_twice_drops_body {H : Host} (env : ProcessEnv)
    (r r' : RequestParams) (vars : Vars) (w w' : World) :
  Processor.signRequest env r vars w = (inr Next, r', w') ->
  forall c, c ∈ aws4_calls (Processor.signRequest env r' vars w').2 ->
            c ∈ aws4_calls w' \/ opt_body c.1 = None.
Proof.
  intros Hrun.
  assert (Hbody : signed_body r' vars = inr None).
  { destruct (signRequest_success_inv _ _ _ _ _ _ Hrun)
      as (parsedUrl & payload & signed & _ & Hpayload & _ & _ & Hjson).
    unfold signed_body.
    destruct payload as [b|]; destruct Hjson as [Hjson _]; rewrite Hjson;
      [reflexivity|].
    unfold signed_body in Hpayload.
    destruct (json r) as [j|]; [|reflexivity].
    destruct (truthy j); [|reflexivity].
    destruct (Processor.resolveTemplate _ vars); discriminate. }
  intros c. rewrite signRequest_run, Hbody.
  destruct (parsed_url r' vars) as [e|parsedUrl']; [cbn [snd]; auto|].
  change (body_log_fault None w') with (@None Error). cbv zeta.
  assert (Hin : c ∈ aws4_calls
                  (call_recorded (signing_options env r' None parsedUrl')
                     (Some (env_credentials env)) (body_logged None w')) ->
                c ∈ aws4_calls w' \/ opt_body c.1 = None).
  { cbn [call_recorded aws4_calls body_logged body_message].
    rewrite elem_of_app, list_elem_of_singleton.
    intros [Hold| ->]; [left; exact Hold|right; reflexivity]. }
  destruct (aws4_sign _ _ _ _); cbn [snd]; exact Hin.
Qed.

(** X7. [signRequest] never writes to the response log or to the error log.
    To the debug log it appends at most one line, which shows at most the
    first 100 code units of the body it signs; it leaves the clock and the
    method of the descriptor alone. *)
Theorem signRequest_log_frame {H : Host} (env : ProcessEnv)
    (r : RequestParams) (vars : Vars) (w : World) :
  let res := Processor.signRequest env r vars w in
  logs res.2 RESPONSE_LOG = logs w RESPONSE_LOG
  /\ logs res.2 ERROR_LOG = logs w ERROR_LOG
  /\ (logs res.2 DEBUG_LOG = logs w DEBUG_LOG
      \/ exists shown,
           logs res.2 DEBUG_LOG
           = logs w DEBUG_LOG
             ++ log_line (clock w) (lit "POST Body Signed Content: " ++ shown)
           /\ (length shown <= 100)%nat
           /\ exists b, signed_body r vars = inr (Some b)
                        /\ shown = firstn 100 b)
  /\ clock res.2 = clock w
  /\ method res.1.2 = method r.
Proof.
  cbv zeta. rewrite signRequest_run.
  destruct (parsed_url r vars) as [e|parsedUrl]; cbn [fst snd].
  { repeat split. left. reflexivity. }
  destruct (signed_body r vars) as [e|body]; cbn [fst snd].
  { repeat split. left. reflexivity. }
  destruct (body_log_fault body w) as [e|]; cbn [fst snd].
  { split; [reflexivity|]. split; [reflexivity|]. split; [left; reflexivity|].
    split; [reflexivity|apply method_prepared]. }
  cbv zeta.
  assert (Hres : forall n (r' : RequestParams),
            method r' = method r ->
            let res : (Error + NextCall) * RequestParams * World :=
              (n, r',
               call_recorded (signing_options env r body parsedUrl)
                 (Some (env_credentials env)) (body_logged body w)) in
            logs res.2 RESPONSE_LOG = logs w RESPONSE_LOG
            /\ logs res.2 ERROR_LOG = logs w ERROR_LOG
            /\ (logs res.2 DEBUG_LOG = logs w DEBUG_LOG
                \/ exists shown,
                     logs res.2 DEBUG_LOG
                     = logs w DEBUG_LOG
                       ++ log_line (clock w)
                            (lit "POST Body Signed Content: " ++ shown)
                     /\ (length shown <= 100)%nat
                     /\ exists b, inr body = inr (Some b) :> Error + _
                                  /\ shown = firstn 100 b)
            /\ clock res.2 = clock w
            /\ method res.1.2 = method r).
  { intros n r' Hm. cbv zeta. cbn [fst snd call_recorded logs clock].
    unfold body_logged, body_message.
    destruct body as [b|]; [destruct (is_empty b)|];
      try (repeat split; [left; reflexivity|exact Hm]).
    destruct (appended_logs DEBUG_LOG
                (log_line (clock w)
                   (lit "POST Body Signed Content: " ++ substring0 100 b)) w)
      as (Hlog & Hother).
    split; [apply Hother; discriminate|].
    split; [apply Hother; discriminate|].
    split; [|split; [reflexivity|exact Hm]].
    right. exists (firstn 100 b). split; [exact Hlog|].
    split; [apply firstn_le_length|]. exists b. split; reflexivity. }
  destruct (aws4_sign _ _ _ _) as [e|signed].
  - apply Hres. apply method_prepared.
  - apply Hres. cbn [set_headers set_url method]. apply method_prepared.
Qed.


(** ** The response hook: edges *)

(** X8. Without a response [afterResponse] writes one line to the error log
    whatever the two flags say, starting with the method and URL of the
    request, leaves the other logs alone and ends with [next()]; when the
    error log cannot be written, the exception of the append leaves the
    hook. *)
Theorem afterResponse_no_response {H : Host} (env : ProcessEnv)
    (requestParams : RequestParams) (w : World) :
  let res := Processor.afterResponse env requestParams None w in
  match append_fault w ERROR_LOG with
  | None =>
      res.1 = inr Next
      /\ (exists more,
            logs res.2 ERROR_LOG
            = logs w ERROR_LOG
              ++ log_line (clock w)
                   (lit "No response received for "
                    ++ interpolate (method requestParams) ++ lit " "
                    ++ url requestParams ++ lit "." ++ more)
            /\ (Processor.DEBUG_LOG_BODY_ENABLED env = false -> more = []))
      /\ forall f, f <> ERROR_LOG -> logs res.2 f = logs w f
  | Some e => res = (inl e, w)
  end.
Proof.
  cbv zeta. unfold Processor.afterResponse, bind, ret. rewrite logToFile_run.
  destruct (append_fault w ERROR_LOG) as [e|]; [reflexivity|]. cbn [fst snd].
  split; [reflexivity|]. split.
  - destruct (Processor.DEBUG_LOG_BODY_ENABLED env).
    + eexists. split; [|discriminate].
      rewrite (proj1 (appended_logs ERROR_LOG _ w)).
      rewrite <- !app_assoc. reflexivity.
    + exists []. split; [|reflexivity].
      rewrite (proj1 (appended_logs ERROR_LOG _ w)).
      rewrite <- !app_assoc, app_nil_r. reflexivity.
  - intros f Hf. apply appended_logs. exact Hf.
Qed.

(** X9. The snippet of a text put in a log line is the text itself when it
    has at most 500 code units, and otherwise its first 500 code units
    followed by three dots: never more than 503 code units. *)
Theorem snippet500_bounded (s : jsstring) :
  ((length s <= 500)%nat -> snippet500 s = s)
  /\ ((500 < length s)%nat -> snippet500 s = firstn 500 s ++ lit "...")
  /\ (length (snippet500 s) <= 503)%nat.
Proof.
  unfold snippet500, substring0.
  destruct (Nat.ltb_spec 500 (length s)) as [Hlong|Hshort].
  - split; [lia|]. split; [reflexivity|].
    rewrite length_app. pose proof (firstn_le_length 500 s).
    change (length (lit "...")) with 3%nat. lia.
  - split; [|split; [lia|]].
    + intros _. rewrite firstn_all2 by lia. apply app_nil_r.
    + rewrite length_app. pose proof (firstn_le_length 500 s).
      cbn [length]. lia.
Qed.

(** X10. A 2xx or 3xx response whose body is absent or the empty string is
    logged with the text [<no response body>] in place of the body; a missing
    method shows as [undefined]. *)
Theorem afterResponse_empty_body {H : Host} (env : ProcessEnv)
    (requestParams : RequestParams) (response : Response) (w : World) :
  response_body response = None \/ response_body response = Some (RText []) ->
  200 <= statusCode response < 400 ->
  Processor.RESPONSE_LOG_BODY_ENABLED env = true ->
  append_fault w RESPONSE_LOG = None ->
  logs (Processor.afterResponse env requestParams (Some response) w).2
    RESPONSE_LOG
  = logs w RESPONSE_LOG
    ++ log_line (clock w)
         (decimal (Z.of_N (statusCode response)) ++ lit " "
          ++ interpolate (method requestParams) ++ lit " "
          ++ url requestParams
          ++ lit " | Response Snippet: <no response body>").
Proof.
  intros Hbody Hband Hflag Hlog. unfold Processor.afterResponse, bind, ret.
  rewrite Hflag.
  destruct (N.leb_spec 400 (statusCode response)); [lia|].
  destruct (N.leb_spec 200 (statusCode response)); [|lia].
  destruct (N.ltb_spec (statusCode response) 400); [|lia].
  cbn [andb]. rewrite logToFile_run, Hlog. cbn [snd].
  rewrite (proj1 (appended_logs RESPONSE_LOG _ w)).
  assert (Htext : (if response_body_truthy (response_body response)
                   then match response_body response with
                        | Some (RBuffer b) => Buffer_toString b
                        | Some (RText s) => s
                        | Some (RData j) => JSON_stringify_indent j
                        | None => lit "<no response body>"
                        end
                   else lit "<no response body>")
                  = lit "<no response body>").
  { destruct Hbody as [-> | ->]; reflexivity. }
  rewrite Htext. f_equal. unfold log_line. f_equal. f_equal. f_equal.
  rewrite <- !app_assoc. reflexivity.
Qed.

(** ** Logs are append-only *)

(** X11. No hook of the main processor ever rewrites a log: after
    [signRequest], [afterResponse] and [loadCsvData] every log file is the
    old file with text added at its end, also when the hook fails. *)
Theorem hooks_append_only {H : Host} (env : ProcessEnv)
    (requestParams : RequestParams) (vars : Vars)
    (response : option Response) (filePath : jsstring) (w : World) :
  log_appended w (Processor.signRequest env requestParams vars w).2
  /\ log_appended w (Processor.afterResponse env requestParams response w).2
  /\ log_appended w (Processor.loadCsvData filePath w).2.
Proof.
  split; [|split].
  - rewrite signRequest_run.
    destruct (parsed_url requestParams vars) as [e|parsedUrl];
      [apply log_appended_refl|].
    destruct (signed_body requestParams vars) as [e|body];
      [apply log_appended_refl|].
    destruct (body_log_fault body w) as [e|]; [apply log_appended_refl|].
    cbv zeta.
    destruct (aws4_sign _ _ _ _); cbn [snd];
      (eapply log_appended_trans;
       [apply log_appended_body_logged|apply log_appended_call_recorded]).
  - assert (Hlog : forall file message (k : unit -> M World NextCall),
              (forall u w', k u w' = (inr Next, w')) ->
              log_appended w (bind (Processor.logToFile file message) k w).2).
    { intros file message k Hk. unfold bind. rewrite logToFile_run.
      destruct (append_fault w file) as [e|]; [apply log_appended_refl|].
      rewrite Hk. apply log_appended_appended. }
    unfold Processor.afterResponse.
    destruct response as [resp|]; [|apply Hlog; reflexivity].
    repeat match goal with
           | |- context [if ?b then _ else _] => destruct b
           end;
      first [apply Hlog; reflexivity | apply log_appended_refl].
  - rewrite loadCsvData_run.
    assert (Hcaught : forall err, log_appended w (load_caught filePath err w).2).
    { intros err. unfold load_caught.
      destruct (append_fault w ERROR_LOG);
        [apply log_appended_refl|apply log_appended_appended]. }
    destruct (csv_records w filePath) as [err|records]; [apply Hcaught|].
    destruct (append_fault w DEBUG_LOG);
      [apply Hcaught|apply log_appended_appended].
Qed.

(** ** The older hooks *)

Section LegacyFacts.
Context {H : Host}.
Variable env : ProcessEnv.
Implicit Types (r : RequestParams) (w : World).

Lemma utils_caught_run (e : Error) r w :
  utils_caught e r w
  = match append_fault w ERROR_LOG with
    | Some thrown => (inl thrown, r, w)
    | None =>
        (inr (NextErr e), r,
         appended ERROR_LOG
           (log_line (clock w) (lit "SigV4 Signing Failed: " ++ message e)) w)
    end.
Proof.
  unfold utils_caught. rewrite utils_logToFile, logToFile_run.
  destruct (append_fault w ERROR_LOG); reflexivity.
Qed.

(** What one call of the hook of the utilities script does, step by step. *)
Lemma utils_signRequest_run r w :
  CustomArtilleryUtils.signRequest env r w =
  match url_parse (url r) with
  | inl e => utils_caught e r w
  | inr parsedUrl =>
      let opts := utils_options env r parsedUrl in
      let w' := call_recorded opts None w in
      match aws4_sign env opts None (clock w) with
      | inl e => utils_caught e r w'
      | inr signed =>
          let r' := legacy_signed (signed_headers signed) r in
          match append_fault w DEBUG_LOG with
          | Some e => utils_caught e r' w'
          | None =>
              (inr Next, r',
               appended DEBUG_LOG
                 (log_line (clock w) (utils_signed_message env r signed)) w')
          end
      end
  end.
Proof.
  unfold CustomArtilleryUtils.signRequest,
    CustomArtilleryUtils.signRequest_try, try_catch, bind, gets, lift, modify,
    ret, in_world, call_aws4_sign, on_req, utils_caught; cbn [req world].
  destruct (url_parse (url r)) as [e|parsedUrl].
  { cbn [req world].
    destruct (CustomArtilleryUtils.logToFile _ _ w) as [[thrown|[]] w'];
      reflexivity. }
  fold (serialized_body r). fold (utils_options env r parsedUrl). cbv zeta.
  destruct (aws4_sign _ _ _ _) as [e|signed].
  { cbn [req world].
    destruct (CustomArtilleryUtils.logToFile _ _ _) as [[thrown|[]] w'];
      reflexivity. }
  unfold legacy_signed, utils_signed_message. cbn [opt_method interpolate
    default].
  rewrite !utils_logToFile.
  destruct (serialized_body r) as [b|]; [destruct (is_empty b)|];
    cbn [req world];
    rewrite (logToFile_run DEBUG_LOG);
    cbn [append_fault call_recorded];
    (destruct (append_fault w DEBUG_LOG) as [e|]; cbn [req world];
     [destruct (CustomArtilleryUtils.logToFile _ _ _) as [[thrown|[]] w''];
      reflexivity
     |reflexivity]).
Qed.

Lemma legacy_signed_frame (signed : Headers) r :
  url (legacy_signed signed r) = url r
  /\ json (legacy_signed signed r) = json r
  /\ method (legacy_signed signed r) = method r
  /\ headers (legacy_signed signed r) = Some signed.
Proof.
  unfold legacy_signed.
  destruct (serialized_body r) as [b|]; [destruct (is_empty b)|];
    repeat split.
Qed.

(** The utilities script hands the signer the serialised payload as it
    stands: no template is resolved. *)
Lemma utils_signRequest_calls_signer r w (parsedUrl : UrlObject) :
  url_parse (url r) = inr parsedUrl ->
  aws4_calls (CustomArtilleryUtils.signRequest env r w).2
  = aws4_calls w ++ [(utils_options env r parsedUrl, None)]
  /\ opt_body (utils_options env r parsedUrl) = serialized_body r.
Proof.
  intros Hparse. split; [|reflexivity].
  rewrite utils_signRequest_run, Hparse. cbv zeta.
  destruct (aws4_sign _ _ _ _) as [e|signed];
    [|destruct (append_fault w DEBUG_LOG)];
    rewrite ?utils_caught_run; cbn [append_fault call_recorded];
    destruct (append_fault w ERROR_LOG); reflexivity.
Qed.
End LegacyFacts.

(** X12. The hook of the utilities script writes exactly one log line per
    call that reaches its continuation: [SigV4 Signing Failed: ...] to the
    error log when it ends with [next(err)], [Signed ...] with the method
    (GET when the descriptor has none), path, host and region to the debug
    log when it ends with [next()].  It ends with an exception, and has
    written nothing, only when the error log cannot be written. *)
Theorem utils_signRequest_one_line {H : Host} (env : ProcessEnv)
    (r : RequestParams) (w : World) :
  let res := CustomArtilleryUtils.signRequest env r w in
  match res.1.1 with
  | inr (NextErr e) =>
      logs res.2 ERROR_LOG
      = logs w ERROR_LOG
        ++ log_line (clock w) (lit "SigV4 Signing Failed: " ++ message e)
      /\ forall f, f <> ERROR_LOG -> logs res.2 f = logs w f
  | inr Next =>
      (exists signedPath,
         logs res.2 DEBUG_LOG
         = logs w DEBUG_LOG
           ++ log_line (clock w)
                (lit "Signed " ++ or_else (method r) (lit "GET") ++ lit " "
                 ++ signedPath ++ lit " for "
                 ++ interpolate (env !! lit "TARGET_HOST") ++ lit " ("
                 ++ interpolate (env !! lit "AWS_REGION") ++ lit ")"))
      /\ forall f, f <> DEBUG_LOG -> logs res.2 f = logs w f
  | inl e =>
      append_fault w ERROR_LOG = Some e /\ forall f, logs res.2 f = logs w f
  end.
Proof.
  cbv zeta. rewrite utils_signRequest_run.
  assert (Hcaught : forall e r0 w0,
            logs w0 = logs w -> clock w0 = clock w ->
            append_fault w0 = append_fault w ->
            match (utils_caught e r0 w0).1.1 with
            | inr (NextErr e') =>
                logs (utils_caught e r0 w0).2 ERROR_LOG
                = logs w ERROR_LOG
                  ++ log_line (clock w)
                       (lit "SigV4 Signing Failed: " ++ message e')
                /\ forall f, f <> ERROR_LOG ->
                             logs (utils_caught e r0 w0).2 f = logs w f
            | inr Next => False
            | inl thrown =>
                append_fault w ERROR_LOG = Some thrown
                /\ forall f, logs (utils_caught e r0 w0).2 f = logs w f
            end).
  { intros e r0 w0 Hlogs Hclock Hfault. rewrite utils_caught_run, Hfault.
    destruct (append_fault w ERROR_LOG) as [thrown|]; cbn [fst snd].
    - split; [reflexivity|]. intros f. rewrite Hlogs. reflexivity.
    - rewrite Hclock.
      destruct (appended_logs ERROR_LOG
                  (log_line (clock w)
                     (lit "SigV4 Signing Failed: " ++ message e)) w0)
        as [Hlog Hother].
      rewrite Hlog, Hlogs. split; [reflexivity|].
      intros f Hf. rewrite (Hother f Hf), Hlogs. reflexivity. }
  assert (Hcaught' : forall e r0 w0,
            logs w0 = logs w -> clock w0 = clock w ->
            append_fault w0 = append_fault w ->
            match (utils_caught e r0 w0).1.1 with
            | inr (NextErr e') =>
                logs (utils_caught e r0 w0).2 ERROR_LOG
                = logs w ERROR_LOG
                  ++ log_line (clock w)
                       (lit "SigV4 Signing Failed: " ++ message e')
                /\ forall f, f <> ERROR_LOG ->
                             logs (utils_caught e r0 w0).2 f = logs w f
            | inr Next =>
                (exists signedPath,
                   logs (utils_caught e r0 w0).2 DEBUG_LOG
                   = logs w DEBUG_LOG
                     ++ log_line (clock w)
                          (lit "Signed " ++ or_else (method r) (lit "GET")
                           ++ lit " " ++ signedPath ++ lit " for "
                           ++ interpolate (env !! lit "TARGET_HOST")
                           ++ lit " ("
                           ++ interpolate (env !! lit "AWS_REGION")
                           ++ lit ")"))
                /\ forall f, f <> DEBUG_LOG ->
                             logs (utils_caught e r0 w0).2 f = logs w f
            | inl thrown =>
                append_fault w ERROR_LOG = Some thrown
                /\ forall f, logs (utils_caught e r0 w0).2 f = logs w f
            end).
  { intros e r0 w0 Hlogs Hclock Hfault.
    pose proof (Hcaught e r0 w0 Hlogs Hclock Hfault) as Hc.
    destruct ((utils_caught e r0 w0).1.1) as [thrown|[|e']];
      [exact Hc|destruct Hc|exact Hc]. }
  destruct (url_parse (url r)) as [e|parsedUrl];
    [apply Hcaught'; reflexivity|].
  cbv zeta. destruct (aws4_sign _ _ _ _) as [e|signed];
    [apply Hcaught'; reflexivity|].
  destruct (append_fault w DEBUG_LOG) as [e|];
    [apply Hcaught'; reflexivity|].
  cbn [fst snd].
  destruct (appended_logs DEBUG_LOG
              (log_line (clock w) (utils_signed_message env r signed))
              (call_recorded (utils_options env r parsedUrl) None w))
    as [Hlog Hother].
  split; [exists (signed_path signed); exact Hlog|exact Hother].
Qed.

(** X13. The two older hooks never change [url], [json] or [method], so the
    descriptor they hand back still carries its [json] payload.
    [custom-signer.js] never ends with an exception, and when it ends with
    [next(err)] the descriptor is exactly as it was.  The hook of the
    utilities script leaves the descriptor as it was whenever it does not end
    with [next()], provided the debug log can be written; when the debug line
    cannot be appended after a successful signature, it fails with the
    descriptor already carrying the signed headers. *)
Theorem legacy_signRequest_frame {H : Host} (env : ProcessEnv)
    (r : RequestParams) (w : World) :
  let utils := CustomArtilleryUtils.signRequest env r w in
  let custom := CustomSigner.signRequest env r w in
  (url utils.1.2 = url r /\ json utils.1.2 = json r
   /\ method utils.1.2 = method r
   /\ (append_fault w DEBUG_LOG = None -> utils.1.1 <> inr Next ->
       utils.1.2 = r)
   /\ (forall e parsedUrl signed,
         append_fault w DEBUG_LOG = Some e ->
         url_parse (url r) = inr parsedUrl ->
         aws4_sign env (utils_options env r parsedUrl) None (clock w)
         = inr signed ->
         utils.1.1 <> inr Next
         /\ utils.1.2 = legacy_signed (signed_headers signed) r))
  /\ (url custom.1.2 = url r /\ json custom.1.2 = json r
      /\ method custom.1.2 = method r
      /\ (forall e, custom.1.1 <> inl e)
      /\ (forall e, custom.1.1 = inr (NextErr e) -> custom.1.2 = r)).
Proof.
  cbv zeta. rewrite utils_signRequest_run, custom_signer_run.
  assert (Hcaught : forall e r0 w0,
            (utils_caught e r0 w0).1.2 = r0
            /\ (utils_caught e r0 w0).1.1 <> inr Next).
  { intros e r0 w0. rewrite utils_caught_run.
    destruct (append_fault w0 ERROR_LOG); split; (reflexivity || discriminate). }
  split.
  - destruct (url_parse (url r)) as [e|parsedUrl] eqn:Hparse.
    { rewrite (proj1 (Hcaught e r w)). do 3 (split; [reflexivity|]).
      split; [intros; reflexivity|]. intros e' p s _ Hp. discriminate Hp. }
    cbv zeta.
    destruct (aws4_sign env (utils_options env r parsedUrl) None (clock w))
      as [e|signed] eqn:Hsign.
    { rewrite (proj1 (Hcaught _ _ _)). do 3 (split; [reflexivity|]).
      split; [intros; reflexivity|].
      intros e' p s _ [= <-] Hs. rewrite Hsign in Hs. discriminate Hs. }
    destruct (append_fault w DEBUG_LOG) as [e|] eqn:Hlog.
    + rewrite (proj1 (Hcaught _ _ _)).
      split; [apply legacy_signed_frame|].
      split; [apply legacy_signed_frame|].
      split; [apply legacy_signed_frame|].
      split; [intros [=]|].
      intros e' p s _ [= <-] Hs. rewrite Hsign in Hs. injection Hs as <-.
      split; [apply Hcaught|reflexivity].
    + cbn [fst snd].
      split; [apply legacy_signed_frame|].
      split; [apply legacy_signed_frame|].
      split; [apply legacy_signed_frame|].
      split; [intros _ Hne; destruct Hne; reflexivity|discriminate].
  - destruct (url_parse (url r)) as [e|parsedUrl]; cbn [fst snd];
      [repeat split; discriminate|].
    cbv zeta. destruct (aws4_sign _ _ _ _) as [e|signed]; cbn [fst snd];
      [repeat split; discriminate|].
    split; [apply legacy_signed_frame|].
    split; [apply legacy_signed_frame|].
    split; [apply legacy_signed_frame|]. split; discriminate.
Qed.

(** X14. In an environment whose [TARGET_HOST] and [AWS_REGION] are the host
    and region that [custom-signer.js] hard-codes, the utilities hook and
    [custom-signer.js] make the same call of the signer and, as long as the
    two log files the utilities hook writes to can be written, end the same
    way and hand back the same descriptor. *)
Theorem utils_agrees_with_custom_signer {H : Host} (env : ProcessEnv)
    (r : RequestParams) (w : World) :
  env !! lit "TARGET_HOST" = Some CustomSigner.TARGET_HOST ->
  env !! lit "AWS_REGION" = Some CustomSigner.REGION ->
  aws4_calls (CustomArtilleryUtils.signRequest env r w).2
  = aws4_calls (CustomSigner.signRequest env r w).2
  /\ (append_fault w DEBUG_LOG = None -> append_fault w ERROR_LOG = None ->
      (CustomArtilleryUtils.signRequest env r w).1
      = (CustomSigner.signRequest env r w).1).
Proof.
  intros Hhost Hregion. rewrite utils_signRequest_run, custom_signer_run.
  assert (Hcalls : forall e r0 w0,
            aws4_calls (utils_caught e r0 w0).2 = aws4_calls w0).
  { intros e r0 w0. rewrite utils_caught_run.
    destruct (append_fault w0 ERROR_LOG); reflexivity. }
  assert (Hcaught : forall e r0 w0,
            append_fault w0 ERROR_LOG = None ->
            (utils_caught e r0 w0).1 = (inr (NextErr e), r0)).
  { intros e r0 w0 Hlog. rewrite utils_caught_run, Hlog. reflexivity. }
  destruct (url_parse (url r)) as [e|parsedUrl].
  { split; [apply Hcalls|]. intros _ Herr. apply Hcaught, Herr. }
  cbv zeta.
  assert (Hopts : utils_options env r parsedUrl
                  = custom_signer_options r parsedUrl).
  { unfold utils_options, custom_signer_options,
      CustomArtilleryUtils.TARGET_HOST, CustomArtilleryUtils.REGION.
    rewrite Hhost, Hregion. reflexivity. }
  rewrite Hopts.
  destruct (aws4_sign _ _ _ _) as [e|signed].
  { split; [apply Hcalls|]. intros _ Herr. apply Hcaught, Herr. }
  split.
  - destruct (append_fault w DEBUG_LOG); [apply Hcalls|reflexivity].
  - intros -> _. reflexivity.
Qed.
(** ** Response validation *)

Section ValidationFacts.
Context {H : Host} {num : Type}.
Variable JSON_parse : jsstring -> Error + json_value num.
Variable is_zero : num -> bool.
Variable data_toString : data -> jsstring.
Variable null_property_error : Error.

(** X15. [validateResponseData] ends with [next()] exactly when the body of
    the response parses to an object that has a truthy [id]; in every other
    case (unparsable body, [null], a number, a list, no [id], an [id] that is
    [null], [false], [0] or the empty string) it ends with [next(err)]. *)
Theorem validateResponseData_passes (requestParams : RequestParams)
    (response : Response) :
  validateResponseData JSON_parse is_zero data_toString null_property_error
    requestParams response = Next
  <-> exists fields v,
        JSON_parse (response_body_string data_toString
                      (response_body response)) = inr (JObject fields)
        /\ get_property (lit "id") fields = Some v
        /\ truthy_value is_zero v = true.
Proof.
  unfold validateResponseData, validateResponseData_try, bind, lift, ret.
  destruct (JSON_parse _) as [e|body].
  { split; [discriminate|]. intros (fields & v & Hp & _). discriminate. }
  destruct body as [|b|n|s|items|fields]; cbn [get_id];
    try (split; [discriminate|]; intros (fields' & v & Hp & _); discriminate).
  destruct (get_property (lit "id") fields) as [v|] eqn:Hid.
  - destruct (truthy_value is_zero v) eqn:Hv.
    + split; [|reflexivity]. intros _. exists fields, v. auto.
    + split; [discriminate|]. intros (fields' & v' & [= <-] & Hid' & Hv').
      rewrite Hid in Hid'. injection Hid' as <-. congruence.
  - split; [discriminate|]. intros (fields' & v' & [= <-] & Hid' & _).
    congruence.
Qed.

(** X16. Every error [validateResponseData] passes on is a new error whose
    message starts with [Validation failed for <url>: ]; when the body did
    parse to something other than [null], the rest of the message is
    [Response is missing the required ID field.] *)
Theorem validateResponseData_error_message (requestParams : RequestParams)
    (response : Response) (e : Error) :
  validateResponseData JSON_parse is_zero data_toString null_property_error
    requestParams response = NextErr e ->
  exists reason,
    message e = lit "Validation failed for " ++ url requestParams ++ lit ": "
                ++ reason
    /\ forall body,
         JSON_parse (response_body_string data_toString
                       (response_body response)) = inr body ->
         body <> JNull ->
         reason = lit "Response is missing the required ID field.".
Proof.
  unfold validateResponseData, validateResponseData_try, bind, lift, ret.
  destruct (JSON_parse _) as [e0|body].
  { intros [= <-]. eexists. split; [reflexivity|]. intros body [=]. }
  destruct body as [|b|n|s|items|fields]; cbn [get_id];
    try (intros [= <-]; eexists; split; [reflexivity|]; intros body [= <-] Hnn;
         first [congruence | reflexivity]).
  destruct (get_property (lit "id") fields) as [v|];
    [destruct (truthy_value is_zero v); [discriminate|]|];
    intros [= <-]; eexists; (split; [reflexivity|]); intros; reflexivity.
Qed.
End ValidationFacts.

(** ** Random data *)

Lemma padStart_decimal (width : nat) (bound : nat) (d : Z) :
  forallb (fun n =>
             let s := padStart width ZERO (decimal (Z.of_nat n)) in
             (length s =? width)%nat && forallb is_digit s
             && (digits_value s =? Z.of_nat n)%Z)
          (seq 0 bound) = true ->
  (0 <= d < Z.of_nat bound)%Z ->
  let s := padStart width ZERO (decimal d) in
  length s = width /\ forallb is_digit s = true /\ digits_value s = d.
Proof.
  intros Hall Hd. cbv zeta. rewrite forallb_forall in Hall.
  specialize (Hall (Z.to_nat d)). rewrite Z2Nat.id in Hall by lia.
  assert (Hin : In (Z.to_nat d) (seq 0 bound)) by (apply in_seq; lia).
  apply Hall in Hin. cbv zeta in Hin.
  apply andb_prop in Hin as [Hin Hval]. apply andb_prop in Hin as [Hlen Hdig].
  split; [apply Nat.eqb_eq, Hlen|]. split; [exact Hdig|].
  apply Z.eqb_eq, Hval.
Qed.

Lemma pad2 (d : Z) :
  (0 <= d <= 99)%Z ->
  let s := padStart 2 ZERO (decimal d) in
  length s = 2%nat /\ forallb is_digit s = true /\ digits_value s = d.
Proof.
  intros Hd. apply (padStart_decimal 2 100); [vm_compute; reflexivity|lia].
Qed.

Lemma pad3 (d : Z) :
  (0 <= d <= 999)%Z ->
  let s := padStart 3 ZERO (decimal d) in
  length s = 3%nat /\ forallb is_digit s = true /\ digits_value s = d.
Proof.
  intros Hd. apply (padStart_decimal 3 1000); [vm_compute; reflexivity|lia].
Qed.

Lemma in_range_bounds (date : LocalTime) :
  in_range date = true ->
  (0 <= getDate date <= 99 /\ 0 <= getMinutes date <= 99
   /\ 0 <= getSeconds date <= 99 /\ 0 <= getMilliseconds date <= 999)%Z.
Proof.
  unfold in_range. intros Hr.
  repeat (apply andb_prop in Hr as [Hr ?]).
  repeat match goal with
         | Hb : (_ <=? _)%Z = true |- _ => apply Z.leb_le in Hb
         end.
  lia.
Qed.

(** X17. For a clock reading in the ranges of the [Date] getters, the tag
    that [uniqueFakerEmail] puts in the address is always nine decimal
    digits: day of the month, minutes and seconds on two digits each,
    milliseconds on three. *)
Theorem uniqueTag_nine_digits (date : LocalTime) :
  in_range date = true ->
  length (uniqueTag date) = 9%nat
  /\ forallb is_digit (uniqueTag date) = true.
Proof.
  intros Hr. apply in_range_bounds in Hr as (Hd & Hm & Hs & Hms).
  destruct (pad2 _ Hd) as (Ld & Dd & _). destruct (pad2 _ Hm) as (Lm & Dm & _).
  destruct (pad2 _ Hs) as (Ls & Ds & _).
  destruct (pad3 _ Hms) as (Lms & Dms & _).
  cbv zeta in *. unfold uniqueTag. cbv zeta.
  rewrite !length_app, !forallb_app, Ld, Lm, Ls, Lms, Dd, Dm, Ds, Dms.
  split; reflexivity.
Qed.

(** X18. With the same user name and domain drawn, two clock readings give
    the same address exactly when they agree on the day of the month, the
    minutes, the seconds and the milliseconds: the hour, the month and the
    year play no part. *)
Theorem uniqueFakerEmail_same_address (date1 date2 : LocalTime)
    (faker : Faker) :
  in_range date1 = true -> in_range date2 = true ->
  uniqueFakerEmail date1 faker = uniqueFakerEmail date2 faker
  <-> getDate date1 = getDate date2
      /\ getMinutes date1 = getMinutes date2
      /\ getSeconds date1 = getSeconds date2
      /\ getMilliseconds date1 = getMilliseconds date2.
Proof.
  intros Hr1 Hr2. split.
  - unfold uniqueFakerEmail. cbv zeta. intros Heq.
    apply app_inv_head in Heq. apply app_inv_head in Heq.
    apply app_inv_tail in Heq. revert Heq. unfold uniqueTag. cbv zeta.
    apply in_range_bounds in Hr1 as (Hd1 & Hm1 & Hs1 & Hms1).
    apply in_range_bounds in Hr2 as (Hd2 & Hm2 & Hs2 & Hms2).
    destruct (pad2 _ Hd1) as (Ld1 & _ & Vd1).
    destruct (pad2 _ Hd2) as (Ld2 & _ & Vd2).
    destruct (pad2 _ Hm1) as (Lm1 & _ & Vm1).
    destruct (pad2 _ Hm2) as (Lm2 & _ & Vm2).
    destruct (pad2 _ Hs1) as (Ls1 & _ & Vs1).
    destruct (pad2 _ Hs2) as (Ls2 & _ & Vs2).
    destruct (pad3 _ Hms1) as (_ & _ & Vms1).
    destruct (pad3 _ Hms2) as (_ & _ & Vms2).
    cbv zeta in *. intros Heq.
    apply app_inj_1 in Heq as [Hdd Heq]; [|congruence].
    apply app_inj_1 in Heq as [Hmm Heq]; [|congruence].
    apply app_inj_1 in Heq as [Hss Hms]; [|congruence].
    rewrite <- Vd1, <- Vd2, <- Vm1, <- Vm2, <- Vs1, <- Vs2, <- Vms1, <- Vms2.
    rewrite Hdd, Hmm, Hss, Hms. repeat split.
  - intros (Hd & Hm & Hs & Hms). unfold uniqueFakerEmail, uniqueTag.
    cbv zeta. rewrite Hd, Hm, Hs, Hms. reflexivity.
Qed.

Section GenerateRandomsFacts.
Context {H : Host}.
Variable of_string : jsstring -> value.
(** [String(s)] is [s] for a string *)
Hypothesis String_of_string : forall s, js_String (of_string s) = inr s.

Lemma generateRandoms_lookup (date : LocalTime) (faker : Faker)
    (vars : Vars) (k : jsstring) :
  generateRandoms of_string date faker vars !! k
  = if decide (lit "randomText" = k)
    then Some (Some (of_string (randomText faker None)))
    else if decide (lit "uniqueEmail" = k)
    then Some (Some (of_string (uniqueFakerEmail date faker)))
    else if decide (lit "randomEmail" = k)
    then Some (Some (of_string (internet_email faker)))
    else if decide (lit "randomUuid" = k)
    then Some (Some (of_string (string_uuid faker)))
    else if decide (lit "randomWord" = k)
    then Some (Some (of_string (word_sample faker)))
    else vars !! k.
Proof.
  unfold generateRandoms. cbv zeta. rewrite !lookup_insert. reflexivity.
Qed.

Lemma generateRandoms_generated (date : LocalTime) (faker : Faker)
    (vars : Vars) (name text : jsstring) :
  In (name, text) (generated date faker) ->
  generateRandoms of_string date faker vars !! name
  = Some (Some (of_string text)).
Proof.
  intros Hin. rewrite generateRandoms_lookup. cbn [generated In] in Hin.
  repeat (destruct Hin as [[= <- <-]|Hin];
          [repeat (destruct (decide _) as [Heq|Hne];
                   [first [reflexivity
                          | exfalso; vm_compute in Heq; discriminate Heq]
                   |first [exfalso; apply Hne; reflexivity | clear Hne]])
          |]).
  destruct Hin.
Qed.

(** X19. [generateRandoms] binds the five names [randomWord], [randomUuid],
    [randomEmail], [uniqueEmail] and [randomText] to what [faker] drew,
    overwriting earlier values, and leaves every other variable as it was. *)
Theorem generateRandoms_binds (date : LocalTime) (faker : Faker)
    (vars : Vars) :
  (forall name text,
      In (name, text) (generated date faker) ->
      generateRandoms of_string date faker vars !! name
      = Some (Some (of_string text)))
  /\ (forall k,
        ~ In k (List.map fst (generated date faker)) ->
        generateRandoms of_string date faker vars !! k = vars !! k).
Proof.
  split; [intros name text; apply generateRandoms_generated|].
  intros k Hk. rewrite generateRandoms_lookup.
  cbn [generated List.map fst In] in Hk.
  repeat (destruct (decide _) as [<-|_]; [exfalso; apply Hk; tauto|]).
  reflexivity.
Qed.

(** X20. After [generateRandoms], a placeholder that names one of the five
    generated variables resolves to the text drawn for it. *)
Theorem generateRandoms_then_resolve (date : LocalTime) (faker : Faker)
    (vars : Vars) (t inner s name text : jsstring) :
  In (name, text) (generated date faker) ->
  plain_text t = true -> placeholder_text inner = true ->
  trim inner = name ->
  Processor.resolveTemplate (t ++ lit "{{" ++ inner ++ lit "}}" ++ s)
    (generateRandoms of_string date faker vars)
  = prepend (t ++ text)
      (Processor.resolveTemplate s (generateRandoms of_string date faker vars)).
Proof.
  intros Hin Ht Hinner Hname.
  rewrite resolveTemplate_plain by exact Ht.
  rewrite resolveTemplate_placeholder by exact Hinner.
  unfold lookup_var, property_of.
  rewrite Hname, (generateRandoms_generated _ _ _ _ _ Hin), String_of_string.
  cbn [and_then]. symmetry. apply prepend_app.
Qed.
End GenerateRandomsFacts.

(** * Concrete runs *)

(** ** The older hooks sign the template *)

(** C1, in the utilities script.  [POST /items/{{name}}] with the payload
    [{id: "{{ name }}"}] and [name] bound to [42]: the hook hands the signer,
    and leaves on the descriptor, the body with the placeholder still in it. *)
Theorem utils_signRequest_signs_placeholder :
  let res := CustomArtilleryUtils.signRequest (H := Sample.lenient)
               Inputs.env_full Inputs.post_item
               (Sample.world0 Sample.no_files) in
  let literal := lit "{" ++ Sample.quoted (lit "id") ++ lit ":"
                 ++ Sample.quoted (lit "{{ name }}") ++ lit "}" in
  res.1.1 = inr Next
  /\ List.map (fun c => opt_body c.1) (aws4_calls res.2) = [Some literal]
  /\ body_text res.1.2 = Some literal
  /\ has_marker literal = true.
Proof.
  cbv zeta. split; [|split; [|split]]; vm_compute; reflexivity.
Qed.

(** The main processor on the same request signs and sends [{"id":"42"}]. *)
Example signRequest_signs_42 :
  let res := Processor.signRequest (H := Sample.lenient)
               Inputs.env_full Inputs.post_item Inputs.vars_42
               (Sample.world0 Sample.no_files) in
  let resolved := lit "{" ++ Sample.quoted (lit "id") ++ lit ":"
                  ++ Sample.quoted (lit "42") ++ lit "}" in
  res.1.1 = inr Next
  /\ List.map (fun c => (opt_path c.1, opt_body c.1)) (aws4_calls res.2)
     = [(Some (lit "/items/42?v=1"), Some resolved)]
  /\ url res.1.2 = lit "/items/42?v=1"
  /\ body_text res.1.2 = Some resolved
  /\ has_json res.1.2 = false.
Proof.
  cbv zeta. split; [|split; [|split; [|split]]]; vm_compute; reflexivity.
Qed.

(** A URL the parser rejects: the hook ends with [next(err)], the signer is
    never called and the headers are left as they were. *)
Example signRequest_rejected_url :
  let res := Processor.signRequest
               (H := Sample.host Sample.parse_rejecting Sample.sign_unchecked)
               Inputs.env_full Inputs.post_item Inputs.vars_42
               (Sample.world0 Sample.no_files) in
  res.1.1 = inr (NextErr (mkError (lit "Invalid URL")))
  /\ aws4_calls res.2 = []
  /\ default ∅ (headers res.1.2) !! lit "Authorization" = None.
Proof.
  cbv zeta. split; [|split]; vm_compute; reflexivity.
Qed.

(** ** A URL without a path *)

(** C10, where the code departs from it.  For [GET ?x=1] the parsed URL has
    no [pathname], and [signRequest] signs and hands back the path
    [null?x=1]; for a URL that is one unbound placeholder it signs and hands
    back [null]. *)
Theorem signRequest_null_pathname :
  let res := Processor.signRequest (H := Sample.lenient) Inputs.env_full
               MoreInputs.query_only Inputs.no_vars
               (Sample.world0 Sample.no_files) in
  let res' := Processor.signRequest (H := Sample.lenient) Inputs.env_full
                MoreInputs.templated_url Inputs.no_vars
                (Sample.world0 Sample.no_files) in
  (res.1.1 = inr Next
   /\ url res.1.2 = lit "null?x=1"
   /\ List.map (fun c => opt_path c.1) (aws4_calls res.2)
      = [Some (lit "null?x=1")])
  /\ (res'.1.1 = inr Next
      /\ url res'.1.2 = lit "null"
      /\ List.map (fun c => opt_path c.1) (aws4_calls res'.2)
         = [Some (lit "null")]).
Proof.
  cbv zeta. split; (split; [|split]); vm_compute; reflexivity.
Qed.

(** ** Template resolution *)



Lemma resolveTemplate_no_marker_witness :
  has_marker (lit "/status?verbose={true}") = false
  /\ Processor.resolveTemplate (H := Sample.lenient)
       (lit "/status?verbose={true}") Inputs.vars_42
     = inr (lit "/status?verbose={true}").
Proof.
  split; [vm_compute; reflexivity|].
  apply (resolveTemplate_no_marker (H := Sample.lenient)).
  vm_compute. reflexivity.
Defined.

(** ** Credentials *)

(** C3 as stated fails: without [APP_AWS_SECRET] the hook, run with a signer
    that does not check the key material, ends with [next()] and puts an
    [Authorization] header on the request. *)
Lemma missing_secret_still_signed :
  let res := Processor.signRequest (H := Sample.lenient) Inputs.env_no_secret
               Inputs.post_item Inputs.vars_42
               (Sample.world0 Sample.no_files) in
  Inputs.env_no_secret !! lit "APP_AWS_SECRET" = None
  /\ res.1.1 = inr Next
  /\ is_Some (default ∅ (headers res.1.2) !! lit "Authorization").
Proof.
  cbv zeta. split; [vm_compute; reflexivity|].
  split; [vm_compute; reflexivity|].
  eexists. vm_compute. reflexivity.
Qed.

Lemma signRequest_failure_keeps_headers_witness :
  let res := Processor.signRequest (H := Sample.failing) Inputs.env_no_secret
               Inputs.post_item Inputs.vars_42
               (Sample.world0 Sample.no_files) in
  res.1.1 = inr (NextErr (mkError (lit "signing failed")))
  /\ headers res.1.2 = headers (H := Sample.failing) Inputs.post_item.
Proof.
  cbv zeta.
  assert (Hnext : (Processor.signRequest (H := Sample.failing)
                     Inputs.env_no_secret Inputs.post_item Inputs.vars_42
                     (Sample.world0 Sample.no_files)).1.1
                  = inr (NextErr (mkError (lit "signing failed"))))
    by (vm_compute; reflexivity).
  split; [exact Hnext|].
  pose proof (signRequest_failure_keeps_headers (H := Sample.failing)
                Inputs.env_no_secret Inputs.post_item Inputs.vars_42
                (Sample.world0 Sample.no_files)) as Hkeeps.
  cbv zeta in Hkeeps. destruct Hkeeps as (_ & _ & Hkeeps).
  exact (Hkeeps _ Hnext).
Defined.

(** ** Determinism *)


(** ** Fixtures *)

(** C8 as stated fails: once the log directory is gone, loading a
    well-formed fixture throws the exception of the append into the caller,
    and so does loading a malformed one. *)
Lemma loadCsvData_throws_without_logs :
  let w := Sample.world_without_logs (parse := Sample.parse_relative)
             (sign := Sample.sign_unchecked) Inputs.fixtures in
  csv_records (H := Sample.lenient) w (lit "./data/users.csv")
  = inr [list_to_map [(lit "name", lit "ann");
                      (lit "email", lit "ann@example.com")]]
  /\ (Processor.loadCsvData (H := Sample.lenient) (lit "./data/users.csv") w).1
     = inl Sample.ENOENT
  /\ (Processor.loadCsvData (H := Sample.lenient) (lit "./data/broken.csv")
        w).1
     = inl Sample.ENOENT.
Proof. cbv zeta. split; [|split]; vm_compute; reflexivity. Qed.

Lemma loadCsvData_never_throws_witness :
  let w := Sample.world0 (parse := Sample.parse_relative)
             (sign := Sample.sign_unchecked) Inputs.fixtures in
  (Processor.loadCsvData (H := Sample.lenient) (lit "./data/users.csv") w).1
  = inr [list_to_map [(lit "name", lit "ann");
                      (lit "email", lit "ann@example.com")]]
  /\ exists w',
       Processor.loadCsvData (H := Sample.lenient) (lit "./data/broken.csv") w
       = (inr [], w')
       /\ logs w' ERROR_LOG
          = lit "[2024-01-01T00:00:00.000Z] CSV Load Failed for ./data/broken.csv: Invalid Record Length"
            ++ [10].
Proof.
  cbv zeta. split.
  - destruct (loadCsvData_never_throws (H := Sample.lenient)
                (lit "./data/users.csv")
                (Sample.world0 Inputs.fixtures)) as (Hok & _).
    rewrite (Hok [list_to_map [(lit "name", lit "ann");
                               (lit "email", lit "ann@example.com")]])
      by (vm_compute; reflexivity).
    reflexivity.
  - destruct (loadCsvData_never_throws (H := Sample.lenient)
                (lit "./data/broken.csv")
                (Sample.world0 Inputs.fixtures)) as (_ & Hbad & _).
    specialize (Hbad (mkError (lit "Invalid Record Length"))
                  (or_introl eq_refl)).
    cbn [Sample.world0 append_fault] in Hbad.
    eexists. split; [exact Hbad|]. vm_compute. reflexivity.
Defined.

(** ** Responses *)



(** * More concrete runs *)

Lemma resolveTemplate_undefined_shrinks_witness :
  exists resolved,
    Processor.resolveTemplate (H := Sample.lenient)
      (lit "/a/{{ missing }}/b") Inputs.vars_42 = inr resolved
    /\ (length resolved <= 18)%nat.
Proof.
  apply (resolveTemplate_undefined_shrinks (H := Sample.lenient)
           (lit "/a/{{ missing }}/b") Inputs.vars_42).
  intros key Hkey. vm_compute in Hkey. destruct Hkey as [<-|[]].
  vm_compute. reflexivity.
Defined.

Lemma signRequest_parse_failure_untouched_witness :
  let res := Processor.signRequest
               (H := Sample.host Sample.parse_rejecting Sample.sign_unchecked)
               Inputs.env_full Inputs.post_item Inputs.vars_42
               (Sample.world0 Sample.no_files) in
  res.1.1 = inr (NextErr (mkError (lit "Invalid URL")))
  /\ aws4_calls res.2 = [].
Proof.
  cbv zeta.
  pose proof (signRequest_parse_failure_untouched
                (H := Sample.host Sample.parse_rejecting Sample.sign_unchecked)
                Inputs.env_full Inputs.post_item Inputs.vars_42
                (Sample.world0 Sample.no_files)
                (mkError (lit "Invalid URL")) eq_refl) as Hrun.
  split.
  - exact (f_equal (fun res => res.1.1) Hrun).
  - exact (f_equal (fun res => aws4_calls res.2) Hrun).
Defined.

Lemma signRequest_signer_failure_keeps_body_witness :
  let res := Processor.signRequest (H := Sample.failing) Inputs.env_full
               Inputs.post_item Inputs.vars_42
               (Sample.world0 Sample.no_files) in
  let resolved := lit "{" ++ Sample.quoted (lit "id") ++ lit ":"
                  ++ Sample.quoted (lit "42") ++ lit "}" in
  res.1.1 = inr (NextErr (mkError (lit "signing failed")))
  /\ has_json res.1.2 = false
  /\ body_text res.1.2 = Some resolved.
Proof.
  cbv zeta.
  pose proof (signRequest_signer_failure_keeps_body (H := Sample.failing)
                Inputs.env_full Inputs.post_item Inputs.vars_42
                (Sample.world0 Sample.no_files)
                {| pathname := Some (lit "/items/42");
                   search := Some (lit "?v=1");
                   path := Some (lit "/items/42?v=1") |}
                [(lit "id", lit "{{ name }}")]
                (lit "{" ++ Sample.quoted (lit "id") ++ lit ":"
                 ++ Sample.quoted (lit "42") ++ lit "}")) as Hkeeps.
  cbv zeta in Hkeeps.
  destruct Hkeeps as (Hjson & Hbody & _ & Hnext);
    [vm_compute; reflexivity | reflexivity | reflexivity
    | vm_compute; reflexivity |].
  split; [|split; [exact Hjson|exact Hbody]].
  apply Hnext; reflexivity.
Defined.

Lemma signRequest_body_only_from_json_witness :
  let res := Processor.signRequest (H := Sample.lenient) Inputs.env_full
               MoreInputs.put_raw Inputs.vars_42
               (Sample.world0 Sample.no_files) in
  body_text (H := Sample.lenient) MoreInputs.put_raw
  = Some (lit "raw payload")
  /\ exists o creds, aws4_calls res.2 = [(o, creds)] /\ opt_body o = None.
Proof.
  cbv zeta. split; [vm_compute; reflexivity|].
  pose proof (signRequest_body_only_from_json (H := Sample.lenient)
                Inputs.env_full MoreInputs.put_raw Inputs.vars_42
                (Sample.world0 Sample.no_files)
                {| pathname := Some (lit "/items"); search := None;
                   path := Some (lit "/items") |}) as Hnone.
  cbv zeta in Hnone.
  destruct Hnone as (Hcall & _); [reflexivity | vm_compute; reflexivity |].
  exact Hcall.
Defined.

Lemma signRequest_twice_drops_body_witness :
  let first := Processor.signRequest (H := Sample.lenient) Inputs.env_full
                 Inputs.post_item Inputs.vars_42
                 (Sample.world0 Sample.no_files) in
  let second := Processor.signRequest (H := Sample.lenient) Inputs.env_full
                  first.1.2 Inputs.vars_42 first.2 in
  first.1.1 = inr Next
  /\ forall c, c ∈ aws4_calls second.2 ->
               c ∈ aws4_calls first.2 \/ opt_body c.1 = None.
Proof.
  cbv zeta.
  assert (Hnext : (Processor.signRequest (H := Sample.lenient) Inputs.env_full
                     Inputs.post_item Inputs.vars_42
                     (Sample.world0 Sample.no_files)).1.1 = inr Next)
    by (vm_compute; reflexivity).
  split; [exact Hnext|].
  destruct (Processor.signRequest (H := Sample.lenient) Inputs.env_full
              Inputs.post_item Inputs.vars_42 (Sample.world0 Sample.no_files))
    as [[next r'] w'] eqn:Hrun.
  cbn [fst snd] in Hnext |- *. subst next.
  exact (signRequest_twice_drops_body _ _ _ _ _ _ Hrun).
Defined.


Lemma signRequest_overwrites_Host_witness :
  let r := Inputs.get_status (parse := Sample.parse_relative)
             (sign := Sample.sign_unchecked) (lit "a.example") in
  let h1 : Headers := {[ lit "Host" := Some (lit "a.example") ]} in
  let h2 : Headers := {[ lit "Host" := Some (lit "b.example") ]} in
  h1 <> h2
  /\ (Processor.signRequest (H := Sample.lenient) Inputs.env_full
        (set_headers h1 r) Inputs.vars_42 (Sample.world0 Sample.no_files)).1.1
     = (Processor.signRequest (H := Sample.lenient) Inputs.env_full
          (set_headers h2 r) Inputs.vars_42
          (Sample.world0 Sample.no_files)).1.1.
Proof.
  cbv zeta. split; [vm_compute; discriminate|].
  apply (signRequest_overwrites_Host (H := Sample.lenient) Inputs.env_full
           (Inputs.get_status (lit "a.example"))
           {[ lit "Host" := Some (lit "a.example") ]}
           {[ lit "Host" := Some (lit "b.example") ]}
           Inputs.vars_42 (Sample.world0 Sample.no_files)).
  intros k Hk.
  rewrite !lookup_singleton_ne by (intros Heq; apply Hk; symmetry; exact Heq).
  reflexivity.
Defined.

Lemma afterResponse_empty_body_witness :
  logs (Processor.afterResponse (H := Sample.lenient) Inputs.env_full
          Inputs.post_item (Some MoreInputs.no_content)
          (Sample.world0 Sample.no_files)).2 RESPONSE_LOG
  = lit "[2024-01-01T00:00:00.000Z] 204 POST /items/{{name}}?v=1 | Response Snippet: <no response body>"
    ++ [10].
Proof.
  etransitivity.
  - apply (afterResponse_empty_body (H := Sample.lenient) Inputs.env_full
             Inputs.post_item MoreInputs.no_content
             (Sample.world0 Sample.no_files));
      [left; reflexivity | unfold MoreInputs.no_content; cbn; lia
      | vm_compute; reflexivity | reflexivity].
  - vm_compute. reflexivity.
Defined.

Lemma utils_agrees_with_custom_signer_witness :
  (CustomArtilleryUtils.signRequest (H := Sample.lenient) MoreInputs.env_custom
     Inputs.post_item (Sample.world0 Sample.no_files)).1
  = (CustomSigner.signRequest (H := Sample.lenient) MoreInputs.env_custom
       Inputs.post_item (Sample.world0 Sample.no_files)).1.
Proof.
  apply (utils_agrees_with_custom_signer (H := Sample.lenient)
           MoreInputs.env_custom Inputs.post_item
           (Sample.world0 Sample.no_files));
    first [reflexivity | vm_compute; reflexivity].
Defined.
Lemma validateResponseData_passes_witness :
  validateResponseData (H := Sample.lenient) MoreInputs.parse_with_id
    (Z.eqb 0) (fun _ => lit "[object Object]") MoreInputs.null_error
    Inputs.post_item Inputs.not_found = Next.
Proof.
  apply (validateResponseData_passes (H := Sample.lenient)).
  exists [(lit "id", JString (lit "u-1"))], (JString (lit "u-1")).
  split; [reflexivity|]. split; vm_compute; reflexivity.
Defined.

Lemma validateResponseData_error_message_witness :
  exists reason,
    lit "Validation failed for /items/{{name}}?v=1: Response is missing the required ID field."
    = lit "Validation failed for " ++ url (H := Sample.lenient) Inputs.post_item
      ++ lit ": " ++ reason
    /\ reason = lit "Response is missing the required ID field.".
Proof.
  destruct (validateResponseData_error_message (H := Sample.lenient)
              MoreInputs.parse_without_id (Z.eqb 0)
              (fun _ => lit "[object Object]") MoreInputs.null_error
              Inputs.post_item Inputs.not_found
              (mkError (lit "Validation failed for /items/{{name}}?v=1: Response is missing the required ID field.")))
    as (reason & Hmsg & Hreason); [vm_compute; reflexivity|].
  exists reason. split; [exact Hmsg|].
  apply (Hreason (JObject [(lit "name", JString (lit "ann"))]));
    [reflexivity|discriminate].
Defined.

Lemma uniqueTag_nine_digits_witness :
  in_range MoreInputs.noon = true
  /\ uniqueTag MoreInputs.noon = lit "070530042"
  /\ length (uniqueTag MoreInputs.noon) = 9%nat.
Proof.
  split; [vm_compute; reflexivity|]. split; [vm_compute; reflexivity|].
  apply uniqueTag_nine_digits. vm_compute. reflexivity.
Defined.

Lemma uniqueFakerEmail_same_address_witness :
  in_range MoreInputs.noon = true /\ in_range MoreInputs.later = true
  /\ uniqueFakerEmail MoreInputs.noon MoreInputs.draws
     <> uniqueFakerEmail MoreInputs.later MoreInputs.draws.
Proof.
  split; [vm_compute; reflexivity|]. split; [vm_compute; reflexivity|].
  intros Heq.
  apply (uniqueFakerEmail_same_address MoreInputs.noon MoreInputs.later)
    in Heq as (_ & _ & Hs & _); [discriminate Hs | |]; vm_compute; reflexivity.
Defined.

Lemma generateRandoms_then_resolve_witness :
  let vars := generateRandoms (H := Sample.lenient) Sample.VText
                MoreInputs.noon MoreInputs.draws Inputs.vars_42 in
  Processor.resolveTemplate (H := Sample.lenient)
    (lit "/users/" ++ lit "{{" ++ lit " randomUuid " ++ lit "}}"
     ++ lit "?n={{name}}") vars
  = inr (lit "/users/3f2c9a7e-0000-4000-8000-000000000001?n=42").
Proof.
  cbv zeta. etransitivity.
  - apply (generateRandoms_then_resolve (H := Sample.lenient) Sample.VText
             (fun s => eq_refl) MoreInputs.noon MoreInputs.draws Inputs.vars_42
             (lit "/users/") (lit " randomUuid ") (lit "?n={{name}}")
             (lit "randomUuid") (lit "3f2c9a7e-0000-4000-8000-000000000001"));
      [right; left; reflexivity | vm_compute; reflexivity
      | vm_compute; reflexivity | vm_compute; reflexivity].
  - vm_compute. reflexivity.
Defined.
